(** * memento-mori command-line front ends: a shallow embedding

    The development follows [bin/mb.py] (raw-data downloads driven by the
    DownloadRawDataMB manifest) and [bin/assets.py] (bundle downloads,
    pattern search over bundle contents, parallel extraction).

    Python values are embedded as follows: [str] is [string], [bytes] is a
    list of bytes, [int] is [Z], [None]-able options are [option], and a
    [pathlib.Path] is the tuple of its [parts] (POSIX flavour).  Commands
    run in a small state-and-exception monad over a world made of the
    filesystem and the sequence of observable effects. *)

From Stdlib Require Import ZArith String Ascii List Bool Lia DecimalString Sorted.
From stdpp Require Import base option list gmap strings.

Local Open Scope string_scope.
Local Open Scope Z_scope.

(** ** Python values *)

Definition bytes := list Byte.byte.

(** Truthiness of an optional [int] option value ([if self.limit:]): both
    [None] and [0] are false. *)
Definition truthy_int (o : option Z) : bool :=
  match o with
  | None => false
  | Some n => negb (n =? 0)
  end.

(** Truthiness of an optional [str] option value ([if self.pattern:]). *)
Definition truthy_str (o : option string) : bool :=
  match o with
  | None | Some "" => false
  | Some _ => true
  end.

(** [l[:n]] for a list [l] and an [int] [n]: a negative bound counts from
    the end. *)
Definition slice_to {A} (l : list A) (n : Z) : list A :=
  if 0 <=? n then take (Z.to_nat n) l
  else take (Z.to_nat (Z.of_nat (length l) + n)) l.

(** [sorted(l)] on strings: a stable insertion sort by code points. *)
Fixpoint insert_sorted (x : string) (l : list string) : list string :=
  match l with
  | [] => [x]
  | y :: l' => if String.ltb x y then x :: l else y :: insert_sorted x l'
  end.

Definition sorted (l : list string) : list string :=
  fold_right insert_sorted [] (rev l).

(** ** Pure paths ([pathlib.PurePosixPath]) *)

Module PurePath.

(** A path is its [parts] tuple; an absolute path starts with its root
    ("/" or "//").  The segments ".." are kept as they are, as pathlib
    does. *)
Definition path := list string.

Definition slash : ascii := "/"%char.

(** Splits on "/" (the accumulator holds the current segment reversed). *)
Fixpoint split_slash (acc : list ascii) (s : string) : list string :=
  match s with
  | EmptyString => [string_of_list_ascii (rev acc)]
  | String c s' =>
      if Ascii.eqb c slash
      then string_of_list_ascii (rev acc) :: split_slash [] s'
      else split_slash (c :: acc) s'
  end.

(** Empty segments and "." are dropped when a path is parsed. *)
Definition keep_segment (seg : string) : bool :=
  negb (String.eqb seg "" || String.eqb seg ".").

Definition segments (s : string) : list string :=
  List.filter keep_segment (split_slash [] s).

(** The root of a path string: exactly two leading slashes are kept,
    any other number of leading slashes collapses to one. *)
Definition root_of (s : string) : option string :=
  match s with
  | String "/" (String "/" (String "/" _)) => Some "/"
  | String "/" (String "/" _) => Some "//"
  | String "/" _ => Some "/"
  | _ => None
  end.

Definition is_root (r : string) : bool :=
  String.eqb r "/" || String.eqb r "//".

(** [PurePosixPath(s)] *)
Definition of_string (s : string) : path :=
  match root_of s with
  | Some r => r :: segments s
  | None => segments s
  end.

(** [p.joinpath(s)]: an absolute argument replaces [p]. *)
Definition joinpath (p : path) (s : string) : path :=
  match root_of s with
  | Some r => r :: segments s
  | None => (p ++ segments s)%list
  end.

(** [p.parent]: the anchor is its own parent. *)
Definition parent (p : path) : path :=
  match p with
  | [r] => if is_root r then p else []
  | _ => removelast p
  end.

(** The paths without a name: "." and the roots. *)
Definition is_anchor (p : path) : bool :=
  match p with
  | [] => true
  | [r] => is_root r
  | _ => false
  end.

End PurePath.

Export PurePath.

(** ** Exceptions, effects and the command monad *)

Inductive exn : Type :=
| RuntimeError (msg : string)
| ValueError_invalid_file (name : string)
    (** [ValueError(f'Invalid file={name!r} - does not match any
        DownloadRawDataMB FilePath')] *)
| FileExistsError (p : path)
| FileNotFoundError (p : path)
| NotADirectoryError (p : path)
| IsADirectoryError (p : path)
| CollaboratorError (what : string)
    (** raised inside a collaborator: the client's fetch, the bundle
        reader, the extractor *).

Inductive resource_kind := RawData | Asset.

Inductive log_msg : Type :=
| MsgSaving (p : path)                       (* f'Saving {path_repr(path)}' *)
| MsgAllDownloaded                           (* 'All files have already been downloaded ...' *)
| MsgDownloading (dry : bool) (n : nat) (parallel : Z)
                                             (* f'{prefix} {len(paths):,d} files using {parallel} threads' *)
| MsgFilesThatWould                          (* 'Files that would be downloaded:' *)
| MsgDownloadingBundles (n : nat)            (* f'Downloading {len(futures)} bundles' *)
| MsgSavingBundle (name : string).           (* f'Saving {bundle_name}' *)

Definition DEBUG : Z := 10.
Definition INFO : Z := 20.

Inductive event : Type :=
| EvFetch (kind : resource_kind) (name : string)   (* one call of the fetch capability *)
| EvMkdir (p : path)                               (* a directory was created *)
| EvWrite (p : path) (data : bytes)                (* a file was written *)
| EvLog (lvl : Z) (msg : log_msg)
| EvPrint (line : string).

Inductive node : Type :=
| File (data : bytes)
| Dir.

Record world : Type := World {
  fs : gmap path node;
  trace : list event;
}.

Definition M (A : Type) : Type := world -> (exn + A) * world.

Definition ret {A} (a : A) : M A := fun w => (inr a, w).
Definition raise {A} (e : exn) : M A := fun w => (inl e, w).
Definition bind {A B} (m : M A) (k : A -> M B) : M B :=
  fun w =>
    match m w with
    | (inl e, w') => (inl e, w')
    | (inr a, w') => k a w'
    end.

Notation "x <- m ;; k" := (bind m (fun x => k))
  (at level 100, m at next level, right associativity).
Notation "m ;;; k" := (bind m (fun _ => k))
  (at level 100, right associativity).

Definition emit (e : event) : M unit :=
  fun w => (inr tt, World (fs w) (trace w ++ [e])%list).

Definition log (lvl : Z) (msg : log_msg) : M unit := emit (EvLog lvl msg).
Definition print (line : string) : M unit := emit (EvPrint line).

(** [for x in l: body(x)] *)
Fixpoint for_each {A} (l : list A) (body : A -> M unit) : M unit :=
  match l with
  | [] => ret tt
  | x :: l' => body x ;;; for_each l' body
  end.

(** ** The filesystem *)

Module FS.

(** pathlib keeps a [".."] part in a path; the kernel resolves it against
    the directory reached so far, which has to be there.  The map of the
    filesystem is keyed by resolved paths: the names leading to a node,
    after the root for an absolute path, after one [".."] per level for
    what lies above the current directory.  There are no symbolic
    links. *)
Definition is_dotdot (s : string) : bool := String.eqb s "..".

(** The resolved paths of "." and of the directories above it. *)
Definition above (k : path) : bool := forallb is_dotdot k.

(** What is at a resolved path: ".", the directories above it and the
    roots always exist and are directories. *)
Definition entry (f : gmap path node) (k : path) : option node :=
  if is_anchor k || above k then Some Dir else f !! k.

(** The directory that holds the directory at [k]; a root holds itself. *)
Definition up (k : path) : path :=
  if above k then (k ++ [".."])%list
  else if is_anchor k then k
  else removelast k.

Inductive errno : Type := ENOENT | ENOTDIR.

(** Whether a regular file lies on the way from [cur] down the parts,
    the last one left out. *)
Fixpoint file_on_way (f : gmap path node) (cur : path) (parts : list string) : bool :=
  match parts with
  | [] => false
  | c :: rest =>
      match entry f cur with
      | Some (File _) => true
      | _ => file_on_way f (cur ++ [c])%list rest
      end
  end.

(** The error for a place that cannot be reached at the resolved path
    [k]: ENOTDIR below a regular file, ENOENT otherwise. *)
Definition unreachable (f : gmap path node) (k : path) : errno :=
  if file_on_way f [] k then ENOTDIR else ENOENT.

(** Resolution of the parts of a path, from the directory at [cur]: a
    [".."] part needs a directory to leave. *)
Fixpoint walk (f : gmap path node) (cur : path) (parts : list string) : errno + path :=
  match parts with
  | [] => inr cur
  | c :: rest =>
      if is_dotdot c then
        match entry f cur with
        | Some Dir => walk f (up cur) rest
        | Some (File _) => inl ENOTDIR
        | None => inl (unreachable f cur)
        end
      else walk f (cur ++ [c])%list rest
  end.

Definition resolve (f : gmap path node) (p : path) : errno + path := walk f [] p.

Definition os_error (e : errno) (p : path) : exn :=
  match e with
  | ENOENT => FileNotFoundError p
  | ENOTDIR => NotADirectoryError p
  end.

(** [os.stat(p)], as far as the commands look at it: the node the path
    leads to, if it resolves and something is there. *)
Definition node_at (f : gmap path node) (p : path) : option node :=
  match resolve f p with
  | inr k => entry f k
  | inl _ => None
  end.

(** A read of the filesystem. *)
Definition reads {A} (g : gmap path node -> A) : M A :=
  fun w => (inr (g (fs w)), w).

Definition exists_in (f : gmap path node) (p : path) : bool :=
  bool_decide (is_Some (node_at f p)).

(** [Path.exists()] *)
Definition exists_ (p : path) : M bool := reads (fun f => exists_in f p).

Definition is_dir_in (f : gmap path node) (p : path) : bool :=
  match node_at f p with
  | Some Dir => true
  | _ => false
  end.

Definition is_file_in (f : gmap path node) (p : path) : bool :=
  match node_at f p with
  | Some (File _) => true
  | _ => false
  end.

(** [os.mkdir(p)]; the exception names the path as it was given.  What
    is missing below a regular file is reported as ENOTDIR. *)
Definition os_mkdir (p : path) : M unit :=
  fun w =>
    match resolve (fs w) p with
    | inl e => (inl (os_error e p), w)
    | inr k =>
        match entry (fs w) k with
        | Some _ => (inl (FileExistsError p), w)
        | None =>
            match entry (fs w) (parent k) with
            | Some Dir => (inr tt, World (<[k := Dir]> (fs w)) (trace w ++ [EvMkdir p])%list)
            | _ => (inl (os_error (unreachable (fs w) k) p), w)
            end
        end
    end.

(** The [except OSError] clause of [Path.mkdir] under [exist_ok=True]:
    the error is swallowed when the path is a directory. *)
Definition exist_ok_handler (p : path) (e : exn) : M unit :=
  fun w => if is_dir_in (fs w) p then (inr tt, w) else (inl e, w).

(** [Path.mkdir(parents=False, exist_ok=True)] *)
Definition mkdir_exist_ok (p : path) : M unit :=
  fun w =>
    match os_mkdir p w with
    | (inr tt, w') => (inr tt, w')
    | (inl e, w') => exist_ok_handler p e w'
    end.

(** [Path.mkdir(parents=True, exist_ok=True)], by recursion on the
    reversed parts: on [FileNotFoundError] the parent is created first
    (unless the path is its own parent) and the directory is retried. *)
Fixpoint mkdir_parents_rev (rp : list string) : M unit :=
  fun w =>
    let p := rev rp in
    match os_mkdir p w with
    | (inr tt, w') => (inr tt, w')
    | (inl (FileNotFoundError q), w') =>
        match rp with
        | [] => (inl (FileNotFoundError q), w')
        | _ :: rp' =>
            if is_anchor p then (inl (FileNotFoundError q), w')
            else (mkdir_parents_rev rp' ;;; mkdir_exist_ok p) w'
        end
    | (inl e, w') => exist_ok_handler p e w'
    end.

Definition mkdir_parents_exist_ok (p : path) : M unit :=
  mkdir_parents_rev (rev p).

(** [Path.write_bytes(data)]: opens the file for writing and replaces
    its content. *)
Definition write_bytes (p : path) (data : bytes) : M unit :=
  fun w =>
    match resolve (fs w) p with
    | inl e => (inl (os_error e p), w)
    | inr k =>
        match entry (fs w) k with
        | Some Dir => (inl (IsADirectoryError p), w)
        | _ =>
            match entry (fs w) (parent k) with
            | Some Dir =>
                (inr tt, World (<[k := File data]> (fs w)) (trace w ++ [EvWrite p data])%list)
            | _ => (inl (os_error (unreachable (fs w) k) p), w)
            end
        end
    end.

End FS.

(** ** Glob patterns ([fnmatch] and [os.path.normcase]) *)

Module Fnmatch.

(** The two values [os.path] can have. *)
Inductive os_path := posixpath | ntpath.

Definition in_range (lo hi : N) (c : ascii) : bool :=
  ((lo <=? N_of_ascii c) && (N_of_ascii c <=? hi))%N.

(** [str.lower()] on one code point below 256: the ASCII capitals and the
    Latin-1 capitals (all of 192..222 but the multiplication sign). *)
Definition lower_char (c : ascii) : ascii :=
  if in_range 65 90 c || (in_range 192 222 c && negb (N_of_ascii c =? 215)%N)
  then ascii_of_N (N_of_ascii c + 32)
  else c.

Fixpoint map_string (f : ascii -> ascii) (s : string) : string :=
  match s with
  | EmptyString => EmptyString
  | String c s' => String (f c) (map_string f s')
  end.

(** [os.path.normcase]: the identity for [posixpath];
    [s.replace('/', '\\').lower()] for [ntpath]. *)
Definition normcase (os : os_path) (s : string) : string :=
  match os with
  | posixpath => s
  | ntpath =>
      map_string (fun c => lower_char (if Ascii.eqb c "/" then "\"%char else c)) s
  end.

(** What one item of a bracket expression stands for. *)
Inductive set_item : Type :=
| Single (c : ascii)
| Range (lo hi : ascii).

(** The matcher [fnmatch.translate] builds, as the sequence of its atoms:
    [.*] (under DOTALL), [.], an escaped literal, or a character set. *)
Inductive tok : Type :=
| Star
| AnyChar
| Lit (c : ascii)
| Class (negate : bool) (items : list set_item).

(** Characters of the set string handed to [re]: a character standing for
    itself (escaped where needed) or an unescaped hyphen joining two
    chunks. *)
Inductive stok : Type :=
| SChar (c : ascii)
| SHyphen.

Definition is_hyphen (c : ascii) : bool := Ascii.eqb c "-".

(** The chunks between range hyphens: the first [skip] characters of a
    chunk are never taken for a range hyphen ([k = i+2 if pat[i] == '!'
    else i+1] for the first chunk, [k = k+3] after a hyphen). *)
Fixpoint chunks_from (skip : nat) (acc : list ascii) (stuff : list ascii)
  : list (list ascii) :=
  match stuff with
  | [] => [rev acc]
  | c :: stuff' =>
      match skip with
      | S k => chunks_from k (c :: acc) stuff'
      | O =>
          if is_hyphen c then rev acc :: chunks_from 2 [] stuff'
          else chunks_from 0 (c :: acc) stuff'
      end
  end.

(** An empty last chunk gives its hyphen back to the chunk before it
    ([chunks[-1] += '-']). *)
Fixpoint close_chunks (cs : list (list ascii)) : list (list ascii) :=
  match cs with
  | [c; []] => [(c ++ ["-"%char])%list]
  | c :: cs' => c :: close_chunks cs'
  | [] => []
  end.

(** Removal of the empty ranges, from the last chunk to the first. *)
Fixpoint merge_chunks (cs : list (list ascii)) : list (list ascii) :=
  match cs with
  | [] => []
  | c :: cs' =>
      match merge_chunks cs' with
      | [] => [c]
      | d :: ds =>
          match last c, head d with
          | Some x, Some y =>
              if (N_of_ascii y <? N_of_ascii x)%N
              then (removelast c ++ tail d)%list :: ds
              else c :: d :: ds
          | _, _ => c :: d :: ds
          end
      end
  end.

Definition chunk_stoks (c : list ascii) : list stok := map SChar c.

(** ['-'.join(...)] of the escaped chunks. *)
Fixpoint join_chunks (cs : list (list ascii)) : list stok :=
  match cs with
  | [] => []
  | [c] => chunk_stoks c
  | c :: cs' => (chunk_stoks c ++ SHyphen :: join_chunks cs')%list
  end.

Definition set_string (stuff : list ascii) : list stok :=
  if existsb is_hyphen stuff
  then
    let skip := match stuff with "!"%char :: _ => 2%nat | _ => 1%nat end in
    join_chunks (merge_chunks (close_chunks (chunks_from skip [] stuff)))
  else chunk_stoks stuff.

Definition stok_char (t : stok) : ascii :=
  match t with
  | SChar c => c
  | SHyphen => "-"%char
  end.

(** How [re] reads the inside of a set: a character followed by an
    unescaped hyphen and another character is a range. *)
Fixpoint parse_set (ts : list stok) : list set_item :=
  match ts with
  | [] => []
  | t :: SHyphen :: t2 :: rest => Range (stok_char t) (stok_char t2) :: parse_set rest
  | t :: rest => Single (stok_char t) :: parse_set rest
  end.

(** The atom for the bracket expression with inside [stuff]: a leading
    ["!"] of the set string negates the set; an empty set never matches
    and a negated empty set matches any character, as [Class] with no
    item does. *)
Definition class_of (stuff : list ascii) : tok :=
  match set_string stuff with
  | SChar "!"%char :: ts => Class true (parse_set ts)
  | ts => Class false (parse_set ts)
  end.

(** Position of the closing bracket in the text after "[": a leading "!"
    and then a leading "]" are stepped over. *)
Fixpoint index_close (s : list ascii) : option nat :=
  match s with
  | [] => None
  | c :: s' => if Ascii.eqb c "]" then Some 0%nat else S <$> index_close s'
  end.

Definition closing (s : list ascii) : option nat :=
  let '(n1, s1) := match s with "!"%char :: s' => (1%nat, s') | _ => (0%nat, s) end in
  let '(n2, s2) := match s1 with "]"%char :: s' => (1%nat, s') | _ => (0%nat, s1) end in
  (fun j => (n1 + n2 + j)%nat) <$> index_close s2.

(** [translate], one character at a time; [skip] counts the characters
    already consumed by a bracket expression, [after_star] tells whether
    the last atom is a star (consecutive stars are compressed). *)
Fixpoint translate_from (pat : list ascii) (skip : nat) (after_star : bool)
  : list tok :=
  match pat with
  | [] => []
  | c :: pat' =>
      match skip with
      | S k => translate_from pat' k after_star
      | O =>
          if Ascii.eqb c "*" then
            if after_star then translate_from pat' 0 true
            else Star :: translate_from pat' 0 true
          else if Ascii.eqb c "?" then AnyChar :: translate_from pat' 0 false
          else if Ascii.eqb c "[" then
            match closing pat' with
            | None => Lit c :: translate_from pat' 0 false
            | Some j => class_of (take j pat') :: translate_from pat' (S j) false
            end
          else Lit c :: translate_from pat' 0 false
      end
  end.

Definition translate (pat : string) : list tok :=
  translate_from (list_ascii_of_string pat) 0 false.

Definition item_matches (x : ascii) (it : set_item) : bool :=
  match it with
  | Single c => Ascii.eqb x c
  | Range lo hi => ((N_of_ascii lo <=? N_of_ascii x) && (N_of_ascii x <=? N_of_ascii hi))%N
  end.

(** Whether one atom other than the star accepts the character [x]. *)
Definition tok_accepts (t : tok) (x : ascii) : bool :=
  match t with
  | Star => false
  | AnyChar => true
  | Lit c => Ascii.eqb x c
  | Class negate items => xorb negate (existsb (item_matches x) items)
  end.

(** Whole-string match of the atoms (the compiled pattern ends in [\Z]).
    [translate] writes a star that is not the last one as a shortest
    match without backtracking; as every other atom takes exactly one
    character, that accepts the same names as the search below. *)
Fixpoint matches (ts : list tok) (s : list ascii) {struct ts} : bool :=
  match ts with
  | [] => match s with [] => true | _ => false end
  | Star :: ts' =>
      (fix star (s : list ascii) : bool :=
         matches ts' s ||
         match s with
         | [] => false
         | _ :: s' => star s'
         end) s
  | t :: ts' =>
      match s with
      | [] => false
      | x :: s' => tok_accepts t x && matches ts' s'
      end
  end.

(** [_compile_pattern(pat)]: the [match] method of the compiled pattern. *)
Definition _compile_pattern (pat : string) : string -> bool :=
  fun name => matches (translate pat) (list_ascii_of_string name).

(** [fnmatch.filter(names, pat)] *)
Definition filter (os : os_path) (names : list string) (pat : string) : list string :=
  let match_ := _compile_pattern (normcase os pat) in
  match os with
  | posixpath => List.filter match_ names
  | ntpath => List.filter (fun name => match_ (normcase os name)) names
  end.

End Fnmatch.

(** ** Collaborators and worker pools *)

(** [mm.client.DataClient], as far as the commands use it: the two fetch
    capabilities (which return the bytes or raise) and the bundle names of
    the asset catalog. *)
Record DataClient : Type := {
  get_raw_data : string -> exn + bytes;
  get_asset : string -> exn + bytes;
  bundle_names : list string;
}.

(** [future.result()]: the value the task returned, or its exception
    raised again in the caller. *)
Definition result {A} (r : exn + A) : M A :=
  match r with
  | inl e => raise e
  | inr a => ret a
  end.

(** A direct call of a fetch capability. *)
Definition call_fetch (kind : resource_kind) (fetch : string -> exn + bytes)
  (name : string) : M bytes :=
  emit (EvFetch kind name) ;;; result (fetch name).

(** The order in which the submitted tasks finish is chosen by the
    scheduler: [sched] gives, at each step, the position of the next task
    to finish among those still pending (taken modulo their number). *)
Fixpoint pick_order {A} (sched : list nat) (n : nat) (pending : list A) : list A :=
  match n with
  | O => []
  | S n' =>
      let i := (hd 0%nat sched mod length pending)%nat in
      match pending !! i with
      | Some x => x :: pick_order (tl sched) n' (delete i pending)
      | None => []
      end
  end.

(** [as_completed(futures)]: every future once, in completion order. *)
Definition as_completed {A} (sched : list nat) (futures : list A) : list A :=
  pick_order sched (length futures) futures.

(** Leaving the [with ...Executor] block calls [shutdown(wait=True)]: the
    tasks not consumed yet still run to their end, so their calls of the
    fetch capability take place; nobody looks at their results. *)
Definition shutdown (kind : resource_kind) (unconsumed : list string) (w : world) : world :=
  World (fs w) (trace w ++ map (EvFetch kind) unconsumed)%list.

(** [with ThreadPoolExecutor() as executor:] around
    [for future in as_completed(futures): body(futures[future], future)],
    where [done] lists the names of the futures in completion order.  The
    call of the fetch capability made by a task is recorded when the
    future is handed to the loop.  An exception in the body leaves the
    loop and the [with] block. *)
Fixpoint drain_pool (kind : resource_kind) (fetch : string -> exn + bytes)
  (body : string -> exn + bytes -> M unit) (done : list string) : M unit :=
  match done with
  | [] => ret tt
  | name :: rest =>
      fun w =>
        match (emit (EvFetch kind name) ;;; body name (fetch name)) w with
        | (inl e, w') => (inl e, shutdown kind rest w')
        | (inr _, w') => drain_pool kind fetch body rest w'
        end
  end.

(** ** [bin/mb.py] *)

Module MB.

Inductive pyval : Type :=
| VInt (n : Z)
| VStr (s : string)
| VBool (b : bool).

(** A row of DownloadRawDataMB: [dict[str, int | str | bool]] with its
    ['FilePath'] entry. *)
Record row : Type := {
  FilePath : string;
  extras : list (string * pyval);
}.

(** [class Save]: the options, and the rows of DownloadRawDataMB as the
    client loaded them ([raw_data_info]; loading the manifest is the
    client's business). *)
Record Save : Type := {
  client : DataClient;
  raw_data_info : list row;
  output : path;
  force : bool;
}.

(** [Save._save] *)
Definition _save (self : Save) (name : string) (data : bytes) (log_lvl : Z) : M unit :=
  let path := joinpath (output self) name in
  FS.mkdir_parents_exist_ok (parent path) ;;;
  log log_lvl (MsgSaving path) ;;;
  FS.write_bytes path data.

(** [class File] *)
Record File : Type := {
  File_save : Save;
  name : string;
  skip_validation : bool;
}.

(** [File.main] *)
Definition File_main (self : File) : M unit :=
  let save := File_save self in
  already <- (if negb (force save)
              then FS.exists_ (joinpath (output save) (name self))
              else ret false) ;;
  if already then
    raise (RuntimeError (name self +:+ " already exists - use --force to download anyways"))
  else if negb (skip_validation self) &&
          negb (existsb (fun row => String.eqb (FilePath row) (name self)) (raw_data_info save))
  then raise (ValueError_invalid_file (name self))
  else
    data <- call_fetch RawData (get_raw_data (client save)) (name self) ;;
    _save save (name self) data INFO.

(** [class All]; [parallel] and [limit] are checked by [NumRange(min=1)]
    when the command line is parsed. *)
Record All : Type := {
  All_save : Save;
  pattern : option string;
  parallel : Z;
  limit : option Z;
  dry_run : bool;
  verbose : Z;
}.

Definition parsed (self : All) : Prop :=
  1 <= parallel self /\ match limit self with Some n => 1 <= n | None => True end.

(** [All._get_paths] *)
Definition _get_paths (os : Fnmatch.os_path) (self : All) : M (list string) :=
  let save := All_save self in
  let rows := raw_data_info save in
  to_download <-
    (if force save then ret (map FilePath rows)
     else FS.reads (fun f =>
            map FilePath
              (List.filter
                 (fun row => negb (FS.exists_in f (joinpath (output save) (FilePath row))))
                 rows))) ;;
  let to_download :=
    if truthy_str (pattern self)
    then Fnmatch.filter os to_download (default "" (pattern self))
    else to_download in
  if truthy_int (limit self)
  then ret (slice_to to_download (default 0 (limit self)))
  else ret to_download.

(** Modelled from the spec: [mm.utils.FutureWaiter], whose source is not
    part of the front ends.  Section 5 has the results "consumed in
    completion order" and the siblings of a failed task running to
    completion before the pool is torn down, which is what
    [as_completed] inside the executor's [with] block gives. *)
Definition FutureWaiter (sched : list nat) (futures : list string) : list string :=
  as_completed sched futures.

(** The body of the loop of [All._download]:
    [self._save(futures[future], future.result())]. *)
Definition _download_body (self : All) (path : string) (future : exn + bytes) : M unit :=
  data <- result future ;;
  _save (All_save self) path data DEBUG.

(** [All._download] *)
Definition _download (self : All) (sched : list nat) (paths : list string) : M unit :=
  drain_pool RawData (get_raw_data (client (All_save self)))
    (_download_body self) (FutureWaiter sched paths).

(** [All.main] *)
Definition All_main (os : Fnmatch.os_path) (self : All) (sched : list nat) : M unit :=
  paths <- _get_paths os self ;;
  match paths with
  | [] => log INFO MsgAllDownloaded
  | _ =>
      log INFO (MsgDownloading (dry_run self) (length paths) (parallel self)) ;;;
      if dry_run self then
        log INFO MsgFilesThatWould ;;;
        for_each (sorted paths) (fun path => print (" - " +:+ path))
      else _download self sched paths
  end.

End MB.

(** ** [bin/assets.py] *)

Module Assets.

(** [class Save]; [limit] is a plain [int] option here. *)
Record Save : Type := {
  client : DataClient;
  output : path;
  limit : option Z;
  force : bool;
  parallel : Z;
}.

(** [Save._get_bundle_names] *)
Definition _get_bundle_names (self : Save) : M (list string) :=
  let out_dir := joinpath (output self) "bundles" in
  everything <-
    (if force self then ret true
     else out_dir_exists <- FS.exists_ out_dir ;; ret (negb out_dir_exists)) ;;
  if everything then ret (bundle_names (client self))
  else
    to_download <-
      FS.reads (fun f =>
        List.filter (fun name => negb (FS.exists_in f (joinpath out_dir name)))
          (bundle_names (client self))) ;;
    if truthy_int (limit self)
    then ret (slice_to to_download (default 0 (limit self)))
    else ret to_download.

(** The body of the loop of [Save.bundles]. *)
Definition bundles_body (out_dir : path) (bundle_name : string) (future : exn + bytes)
  : M unit :=
  let out_path := joinpath out_dir bundle_name in
  log INFO (MsgSavingBundle bundle_name) ;;;
  data <- result future ;;
  FS.write_bytes out_path data.

(** [Save.bundles] *)
Definition bundles (self : Save) (sched : list nat) : M unit :=
  let out_dir := joinpath (output self) "bundles" in
  FS.mkdir_parents_exist_ok out_dir ;;;
  futures <- _get_bundle_names self ;;
  log INFO (MsgDownloadingBundles (length futures)) ;;;
  drain_pool Asset (get_asset (client self)) (bundles_body out_dir)
    (as_completed sched futures).

(** [Save.assets] *)
Definition assets (self : Save) : M unit :=
  raise (RuntimeError "Not supported yet").

(** [class BundleCommand] and its subclasses; [walk_files] stands for the
    files [os.walk] reaches below a directory, in the order it yields
    them. *)
Record BundleCommand : Type := {
  input : path;
  walk_files : path -> list path;
}.

(** [BundleCommand.iter_src_paths] *)
Definition iter_src_paths (self : BundleCommand) : M (list path) :=
  is_file <- FS.reads (fun f => FS.is_file_in f (input self)) ;;
  if is_file then ret [input self] else ret (walk_files self (input self)).

(** [class Find]; [contents] stands for [Bundle(src_path).contents] of
    [mm.assets]: the virtual paths of a container, or the reader's
    exception. *)
Record Find : Type := {
  Find_base : BundleCommand;
  pattern : string;
  contents : path -> exn + list string;
}.

(** A generator that was run to its end: what it yielded, and the
    exception that stopped it, if any. *)
Definition generated (A : Type) : Type := list A * option exn.

(** [Find.iter_bundle_contents] *)
Fixpoint iter_bundle_contents (contents : path -> exn + list string)
  (src_paths : list path) : generated (path * string) :=
  match src_paths with
  | [] => ([], None)
  | src_path :: rest =>
      match contents src_path with
      | inl e => ([], Some e)
      | inr paths =>
          let '(more, stop) := iter_bundle_contents contents rest in
          ((map (pair src_path) paths ++ more)%list, stop)
      end
  end.

(** [Find.iter_matching_contents] *)
Definition iter_matching_contents (os : Fnmatch.os_path) (self : Find)
  (src_paths : list path) : generated (path * string) :=
  let match_ := Fnmatch._compile_pattern (Fnmatch.normcase os (pattern self)) in
  let '(found, stop) := iter_bundle_contents (contents self) src_paths in
  match os with
  | Fnmatch.posixpath =>
      (List.filter (fun '(src_path, content_path) => match_ content_path) found, stop)
  | Fnmatch.ntpath =>
      (List.filter
         (fun '(src_path, content_path) => match_ (Fnmatch.normcase os content_path))
         found, stop)
  end.

(** [class Extract]; [extract_bundle] stands for
    [BundleExtractor(output).extract_bundle] of [mm.assets], the task a
    worker process runs for one source. *)
Record Extract : Type := {
  Extract_base : BundleCommand;
  Extract_output : path;
  Extract_parallel : Z;
  extract_bundle : path -> path -> M unit;
}.

(** A submitted task: its exception, if any, is kept in its future. *)
Definition run_task (task : M unit) : M (exn + unit) :=
  fun w => let '(r, w') := task w in (inr r, w').

(** The futures of the tasks once all of them are done, each with its
    source; the workers are taken to finish one source at a time, in the
    order of the schedule. *)
Fixpoint run_all (task : path -> M unit) (src_paths : list path)
  : M (list (path * (exn + unit))) :=
  match src_paths with
  | [] => ret []
  | src_path :: rest =>
      r <- run_task (task src_path) ;;
      rs <- run_all task rest ;;
      ret ((src_path, r) :: rs)
  end.

(** [futures = {executor.submit(extractor.extract_bundle, src_path):
    src_path ...}] followed by [wait(futures)]: the call returns when
    every submitted task is done; its value is the done futures, here
    each source with the outcome of its task. *)
Definition wait (self : Extract) (sched : list nat) (src_paths : list path)
  : M (list (path * (exn + unit))) :=
  run_all (extract_bundle self (Extract_output self)) (as_completed sched src_paths).

(** [Extract.main]: the value of [wait] is dropped. *)
Definition Extract_main (self : Extract) (sched : list nat) : M unit :=
  src_paths <- iter_src_paths (Extract_base self) ;;
  wait self sched src_paths ;;;
  ret tt.

End Assets.

(** ** Vocabulary of the statements *)

(** The candidates of the raw-data plan: the [FilePath] of every manifest
    row, narrowed to the matches of the glob pattern when one is given. *)
Definition raw_candidates (os : Fnmatch.os_path) (self : MB.All) : list string :=
  let ids := map MB.FilePath (MB.raw_data_info (MB.All_save self)) in
  if truthy_str (MB.pattern self)
  then Fnmatch.filter os ids (default "" (MB.pattern self))
  else ids.

(** [already_have] for raw data and for bundles: the destination exists. *)
Definition have_raw (self : MB.All) (w : world) (id : string) : bool :=
  FS.exists_in (fs w) (joinpath (MB.output (MB.All_save self)) id).

Definition bundles_dir (self : Assets.Save) : path :=
  joinpath (Assets.output self) "bundles".

Definition have_bundle (self : Assets.Save) (w : world) (id : string) : bool :=
  FS.exists_in (fs w) (joinpath (bundles_dir self) id).

(** The destination of the single-file download. *)
Definition file_dest (self : MB.File) : path :=
  joinpath (MB.output (MB.File_save self)) (MB.name self).

(** The plan the specification describes. *)
Definition spec_plan (candidates : list string) (already_have : string -> bool)
  (force : bool) (limit : option Z) : list string :=
  let kept := if force then candidates
              else List.filter (fun id => negb (already_have id)) candidates in
  match limit with
  | Some n => take (Z.to_nat n) kept
  | None => kept
  end.

(** A client whose fetches all return no bytes, and small worlds, for
    the examples. *)
Definition no_client (names : list string) : DataClient :=
  {| get_raw_data := fun _ => inr [];
     get_asset := fun _ => inr [];
     bundle_names := names |}.

Definition abcd : list string := ["a"; "b"; "c"; "d"].

Definition rows_abcd : list MB.row :=
  map (fun id => {| MB.FilePath := id; MB.extras := [] |}) abcd.

(** [out/a] is there, next to the directory [out/bundles] holding [a]. *)
Definition world_a : world :=
  World (<[["out"; "bundles"; "a"] := File []]>
           (<[["out"; "bundles"] := Dir]>
              (<[["out"; "a"] := File []]> (<[["out"] := Dir]> ∅))))
        [].

Definition all_abcd (force : bool) (limit : option Z) : MB.All :=
  {| MB.All_save := {| MB.client := no_client []; MB.raw_data_info := rows_abcd;
                       MB.output := ["out"]; MB.force := force |};
     MB.pattern := None; MB.parallel := 4; MB.limit := limit;
     MB.dry_run := false; MB.verbose := 0 |}.

Definition save_abcd (force : bool) (limit : option Z) : Assets.Save :=
  {| Assets.client := no_client abcd; Assets.output := ["out"];
     Assets.limit := limit; Assets.force := force; Assets.parallel := 4 |}.

(** A request for [x/y.bin], which no row of the manifest names, and a
    world where that file is already in the output directory. *)
Definition file_xy (force skip : bool) : MB.File :=
  {| MB.File_save := {| MB.client := no_client []; MB.raw_data_info := rows_abcd;
                        MB.output := ["out"]; MB.force := force |};
     MB.name := "x/y.bin"; MB.skip_validation := skip |}.

Definition world_xy : world :=
  World (<[["out"; "x"; "y.bin"] := File []]>
           (<[["out"; "x"] := Dir]> (<[["out"] := Dir]> ∅)))
        [].

Definition dry_abcd : MB.All :=
  {| MB.All_save := {| MB.client := no_client []; MB.raw_data_info := rows_abcd;
                       MB.output := ["out"]; MB.force := false |};
     MB.pattern := None; MB.parallel := 4; MB.limit := None;
     MB.dry_run := true; MB.verbose := 0 |}.

(** A pattern character that stands for itself. *)
Definition literal_char (c : ascii) : bool :=
  negb (Ascii.eqb c "*" || Ascii.eqb c "?" || Ascii.eqb c "[").

Definition literal (s : string) : bool :=
  forallb literal_char (list_ascii_of_string s).

(** A search for [pattern] in one container holding [content]. *)
Definition find_one (pattern content : string) : Assets.Find :=
  {| Assets.Find_base := {| Assets.input := ["in.bundle"];
                            Assets.walk_files := fun _ => [] |};
     Assets.pattern := pattern;
     Assets.contents := fun _ => inr [content] |}.

(** The errors of the filesystem calls ([OSError] and its subclasses). *)
Definition is_os_error (e : exn) : Prop :=
  match e with
  | FileExistsError _ | FileNotFoundError _ | NotADirectoryError _ | IsADirectoryError _ => True
  | _ => False
  end.

Definition is_fetch (ev : event) : bool :=
  match ev with
  | EvFetch _ _ => true
  | _ => false
  end.

(** Events that neither fetch nor write a file. *)
Definition quiet (ev : event) : Prop :=
  match ev with
  | EvMkdir _ | EvLog _ _ | EvPrint _ => True
  | _ => False
  end.

(** The events a save of [d] at [p] may emit. *)
Definition saves (p : path) (d : bytes) (ev : event) : Prop :=
  quiet ev \/ ev = EvWrite p d.



(** A path without a [".."] part: the kernel reads it as pathlib wrote
    it. *)
Definition no_dotdot (p : path) : bool :=
  forallb (fun part => negb (FS.is_dotdot part)) p.

(** An empty output tree. *)
Definition world_empty : world := World ∅ [].

Definition save_out : MB.Save :=
  {| MB.client := no_client []; MB.raw_data_info := rows_abcd;
     MB.output := ["out"]; MB.force := false |}.

(** A loop body that persists the result of the task [name] at
    [dest name]: on a failed task it raises the task's exception and
    leaves the filesystem alone; on a result it emits nothing but the
    events of saving it there, and fails with a filesystem error only. *)
Definition persists_at (dest : string -> path)
  (body : string -> exn + bytes -> M unit) : Prop :=
  forall name r w, exists res w' evs,
    body name r w = (res, w') /\
    trace w' = (trace w ++ evs)%list /\
    (forall e, r = inl e -> res = inl e /\ Forall quiet evs) /\
    (forall d, r = inr d ->
       Forall (saves (dest name) d) evs /\ forall e, res = inl e -> is_os_error e).

(** A client that fails to fetch [a] and fetches everything else. *)
Definition fetch_but_a (name : string) : exn + bytes :=
  if String.eqb name "a" then inl (CollaboratorError "NetworkError")
  else inr [Byte.x2a].

Definition flaky_client : DataClient :=
  {| get_raw_data := fetch_but_a; get_asset := fetch_but_a; bundle_names := ["a"; "b"] |}.

Definition flaky_save : Assets.Save :=
  {| Assets.client := flaky_client; Assets.output := ["out"];
     Assets.limit := None; Assets.force := false; Assets.parallel := 4 |}.

Definition flaky_all : MB.All :=
  {| MB.All_save := {| MB.client := flaky_client; MB.raw_data_info := rows_abcd;
                       MB.output := ["out"]; MB.force := false |};
     MB.pattern := None; MB.parallel := 4; MB.limit := None;
     MB.dry_run := false; MB.verbose := 0 |}.




(** [tasks_ran task w outcomes w']: the tasks of [outcomes] were run one
    after the other from [w] to [w'], each from the world its
    predecessors left, whatever their outcomes, and [outcomes] records
    what each returned or raised. *)
Fixpoint tasks_ran (task : path -> M unit) (w : world)
  (outcomes : list (path * (exn + unit))) (w' : world) : Prop :=
  match outcomes with
  | [] => w' = w
  | (src_path, r) :: rest =>
      exists w1, task src_path w = (r, w1) /\ tasks_ran task w1 rest w'
  end.

(** Three containers below [in]; the second one either holds nothing or
    cannot be parsed; extracting another one writes a file named after it
    into the output directory. *)
Definition s1 : path := ["in"; "s1"].
Definition s2 : path := ["in"; "s2"].
Definition s3 : path := ["in"; "s3"].

Definition toy_extract (s2_parses : bool) (out src_path : path) : M unit :=
  if bool_decide (src_path = s2) then
    if s2_parses then ret tt else raise (CollaboratorError "ParseError")
  else FS.write_bytes (out ++ [default "" (last src_path)])%list [Byte.x2a].

Definition extract_cmd (s2_parses : bool) : Assets.Extract :=
  {| Assets.Extract_base := {| Assets.input := ["in"];
                               Assets.walk_files := fun _ => [s1; s2; s3] |};
     Assets.Extract_output := ["out"];
     Assets.Extract_parallel := 4;
     Assets.extract_bundle := toy_extract s2_parses |}.

Definition world_in : world :=
  World (<[s3 := File []]> (<[s2 := File []]> (<[s1 := File []]>
           (<[["in"] := Dir]> (<[["out"] := Dir]> ∅)))))
        [].

(** ** More of the front ends *)

(** [Find.main]; [path_repr] stands for [mm.fs.path_repr].  The matches
    are printed as the generator yields them; the exception that stops
    the generator, if any, leaves [main] after the lines printed so
    far. *)
Definition Find_main (os : Fnmatch.os_path) (self : Assets.Find)
  (path_repr : path -> string) : M unit :=
  src_paths <- Assets.iter_src_paths (Assets.Find_base self) ;;
  let '(found, stop) := Assets.iter_matching_contents os self src_paths in
  for_each found
    (fun '(src_path, content_path) =>
       print ("Bundle " +:+ path_repr src_path +:+ " contains: " +:+ content_path)) ;;;
  match stop with
  | Some e => raise e
  | None => ret tt
  end.

(** [bin/game.py], the account lookup of [Show]. *)
Module Game.

(** [str(n)] for an [int]. *)
Definition str_int (n : Z) : string := NilZero.string_of_int (Z.to_int n).

(** [', '.join(l)] *)
Fixpoint join_comma (l : list string) : string :=
  match l with
  | [] => ""
  | [x] => x
  | x :: l' => x +:+ ", " +:+ join_comma l'
  end.

(** [mm.config.AccountConfig], as far as the commands use it. *)
Record AccountConfig : Type := {
  user_id : Z;
  name : string;
  client_key : option string;
}.

(** [config.accounts]: a [dict] from [str(user_id)] to the account, in
    the order of the configuration file. *)
Definition accounts_dict : Type := list (string * AccountConfig).

(** [d[k]]; [None] stands for [KeyError]. *)
Fixpoint getitem (d : accounts_dict) (k : string) : option AccountConfig :=
  match d with
  | [] => None
  | (k', v) :: d' => if String.eqb k' k then Some v else getitem d' k
  end.

(** [cli_command_parser.exceptions.UsageError] with the two messages of
    [Show.account]; the second one is
    [f'Unable to find an account with name={self.name!r} - pick from:
    {names}']. *)
Inductive UsageError : Type :=
| UsageError_msg (msg : string)
| UsageError_no_account (name : option string) (names : string).

(** [class Show]: the two options of the account group. *)
Record Show : Type := {
  Show_user_id : option Z;
  Show_name : option string;
}.

(** The [else] branch of [Show.account]. *)
Definition account_by_name (accounts : accounts_dict) (self : Show)
  : UsageError + AccountConfig :=
  match List.find (fun account => bool_decide (Some (name account) = Show_name self))
          (map snd accounts) with
  | Some account => inr account
  | None =>
      inl (UsageError_no_account (Show_name self)
             (join_comma (sorted (map (fun a => name (snd a)) accounts))))
  end.

(** [Show.account]; [if user_id := self.user_id:] is false for [None]
    and for [0]. *)
Definition account (accounts : accounts_dict) (self : Show)
  : UsageError + AccountConfig :=
  if truthy_int (Show_user_id self) then
    let user_id := default 0 (Show_user_id self) in
    match getitem accounts (str_int user_id) with
    | Some account => inr account
    | None =>
        inl (UsageError_msg ("Invalid user_id=" +:+ str_int user_id +:+ " - pick from: "
                             +:+ join_comma (sorted (map fst accounts))))
    end
  else account_by_name accounts self.

End Game.

(** ** Vocabulary of the further properties *)

Definition is_write (ev : event) : bool :=
  match ev with
  | EvWrite _ _ => true
  | _ => false
  end.

(** The writes a complete run makes for the completions [done]. *)
Definition writes_of (fetch : string -> exn + bytes) (dest : string -> path)
  (done : list string) : list event :=
  flat_map (fun name => match fetch name with
                        | inr d => [EvWrite (dest name) d]
                        | inl _ => []
                        end) done.

(** A loop body that returns normally only after writing the result of
    its task, once, at [dest name]. *)
Definition writes_once (dest : string -> path)
  (body : string -> exn + bytes -> M unit) : Prop :=
  forall name r w w',
    body name r w = (inr tt, w') ->
    exists d mk,
      r = inr d /\
      trace w' = (trace w ++ mk ++ [EvWrite (dest name) d])%list /\
      Forall quiet mk.

(** The lines printed on standard output, in order. *)
Definition filter_prints (evs : list event) : list string :=
  flat_map (fun ev => match ev with EvPrint line => [line] | _ => [] end) evs.

(** [a <= b] on strings, by code points. *)
Definition str_le (a b : string) : Prop := String.ltb b a = false.

(** The line [Find.main] prints for a match. *)
Definition find_line (path_repr : path -> string) (m : path * string) : string :=
  "Bundle " +:+ path_repr (fst m) +:+ " contains: " +:+ snd m.

(** The raw-data command over a, b, c, d with a pattern. *)
Definition pattern_abcd (force : bool) (pat : string) : MB.All :=
  {| MB.All_save := {| MB.client := no_client []; MB.raw_data_info := rows_abcd;
                       MB.output := ["out"]; MB.force := force |};
     MB.pattern := Some pat; MB.parallel := 4; MB.limit := None;
     MB.dry_run := true; MB.verbose := 0 |}.

(** Every file of the manifest a, b, c, d is in the output directory. *)
Definition world_all : world :=
  World (<[["out"; "d"] := File []]> (<[["out"; "c"] := File []]>
           (<[["out"; "b"] := File []]> (<[["out"; "a"] := File []]>
              (<[["out"] := Dir]> ∅)))))
        [].

(** A request for the file a of the manifest, whose fetch fails. *)
Definition file_flaky : MB.File :=
  {| MB.File_save := {| MB.client := flaky_client; MB.raw_data_info := rows_abcd;
                        MB.output := ["out"]; MB.force := false |};
     MB.name := "a"; MB.skip_validation := false |}.

(** The output root [out] is a regular file. *)
Definition world_blocked : world := World (<[["out"] := File []]> ∅) [].

(** A loop body that keeps the regular files there are and, when it
    returns normally, has left a regular file at [dest name]. *)
Definition stores (dest : string -> path)
  (body : string -> exn + bytes -> M unit) : Prop :=
  (forall name r w res w' q,
      body name r w = (res, w') ->
      FS.is_file_in (fs w) q = true -> FS.is_file_in (fs w') q = true) /\
  (forall name r w w',
      body name r w = (inr tt, w') -> FS.is_file_in (fs w') (dest name) = true).

(** The path of the bundles directory is a regular file. *)
Definition world_bundles_file : world :=
  World (<[["out"; "bundles"] := File []]> (<[["out"] := Dir]> ∅)) [].

(** A search over three containers, the second of which cannot be read. *)
Definition find_three (pattern : string) : Assets.Find :=
  {| Assets.Find_base := {| Assets.input := ["in"];
                            Assets.walk_files := fun _ => [s1; s2; s3] |};
     Assets.pattern := pattern;
     Assets.contents := fun src_path =>
       if bool_decide (src_path = s2) then inl (CollaboratorError "ParseError")
       else inr ["icons/a.png"; "data/b.bin"] |}.

(** An extraction of the single container [s1]. *)
Definition extract_one : Assets.Extract :=
  {| Assets.Extract_base := {| Assets.input := s1;
                               Assets.walk_files := fun _ => [s1; s2; s3] |};
     Assets.Extract_output := ["out"];
     Assets.Extract_parallel := 4;
     Assets.extract_bundle := toy_extract false |}.

(** Two accounts, the first one with user id 0. *)
Definition two_accounts : Game.accounts_dict :=
  [("0", {| Game.user_id := 0; Game.name := "main"; Game.client_key := None |});
   ("42", {| Game.user_id := 42; Game.name := "alt"; Game.client_key := None |})].

(** * Properties *)

(** ** Path resolution *)

Local Open Scope list_scope.

Lemma walk_app (f : gmap path node) (cur : path) (p q : list string) :
  FS.walk f cur (p ++ q) =
    match FS.walk f cur p with
    | inr k => FS.walk f k q
    | inl e => inl e
    end.
Proof.
  revert cur. induction p as [|c p IH]; intros cur; simpl; [reflexivity|].
  destruct (FS.is_dotdot c); [|apply IH].
  destruct (FS.entry f cur) as [[d|]|]; [reflexivity | apply IH | reflexivity].
Qed.

(** A path without [".."] parts resolves to itself. *)
Lemma walk_no_dotdot (f : gmap path node) (cur : path) (p : list string) :
  no_dotdot p = true -> FS.walk f cur p = inr (cur ++ p).
Proof.
  revert cur. induction p as [|c p IH]; intros cur H; simpl.
  - rewrite app_nil_r. reflexivity.
  - simpl in H. apply andb_true_iff in H as [Hc Hp]. apply negb_true_iff in Hc.
    rewrite Hc, (IH _ Hp), <- app_assoc. reflexivity.
Qed.

Lemma resolve_no_dotdot (f : gmap path node) (p : path) :
  no_dotdot p = true -> FS.resolve f p = inr p.
Proof. intros H. unfold FS.resolve. rewrite (walk_no_dotdot f [] p H). reflexivity. Qed.

Lemma is_root_not_dotdot (r : string) : is_root r = true -> FS.is_dotdot r = false.
Proof.
  unfold is_root, FS.is_dotdot. intros H.
  apply orb_true_iff in H as [H|H]; apply String.eqb_eq in H; subst; reflexivity.
Qed.

Lemma anchor_no_dotdot (p : path) : is_anchor p = true -> no_dotdot p = true.
Proof.
  destruct p as [|r [|]]; simpl; try discriminate; [reflexivity|].
  intros H. rewrite (is_root_not_dotdot r H). reflexivity.
Qed.

Lemma entry_anchor (f : gmap path node) (k : path) :
  is_anchor k = true -> FS.entry f k = Some Dir.
Proof. intros H. unfold FS.entry. rewrite H. reflexivity. Qed.







Lemma parent_long (q : path) :
  (2 <= length q)%nat -> parent q = removelast q.
Proof.
  destruct q as [|a [|b q]]; simpl; intros H; try lia; reflexivity.
Qed.

(** The parent of a path with a name is the path without its last part. *)
Lemma parent_snoc (l : path) (x : string) :
  is_anchor (l ++ [x]) = false -> parent (l ++ [x]) = l.
Proof.
  intros H. destruct l as [|y l].
  - simpl in *. rewrite H. reflexivity.
  - rewrite parent_long by (rewrite length_app; simpl; lia).
    apply removelast_last.
Qed.




Lemma resolve_snoc (f : gmap path node) (q : path) (c : string) :
  FS.resolve f (q ++ [c]) =
    match FS.resolve f q with
    | inr kq =>
        if FS.is_dotdot c then
          match FS.entry f kq with
          | Some Dir => inr (FS.up kq)
          | Some (File _) => inl FS.ENOTDIR
          | None => inl (FS.unreachable f kq)
          end
        else inr (kq ++ [c])
    | inl e => inl e
    end.
Proof.
  unfold FS.resolve. rewrite walk_app. destruct (FS.walk f [] q) as [e|kq]; [reflexivity|].
  simpl. destruct (FS.is_dotdot c); [|reflexivity].
  destruct (FS.entry f kq) as [[d|]|]; reflexivity.
Qed.

(** ** Changes of the filesystem map *)

Lemma entry_insert_ne (f : gmap path node) (k k' : path) (n : node) :
  k <> k' -> FS.entry (<[k := n]> f) k' = FS.entry f k'.
Proof.
  intros Hne. unfold FS.entry. destruct (is_anchor k' || FS.above k'); [reflexivity|].
  apply lookup_insert_ne. exact Hne.
Qed.

Lemma entry_insert_eq (f : gmap path node) (k : path) (n : node) :
  FS.entry f k <> Some Dir -> FS.entry (<[k := n]> f) k = Some n.
Proof.
  unfold FS.entry. destruct (is_anchor k || FS.above k); [congruence|].
  intros _. apply lookup_insert_eq.
Qed.

Lemma insert_keeps_dirs (f : gmap path node) (k k0 : path) (n : node) :
  FS.entry f k <> Some Dir ->
  FS.entry f k0 = Some Dir -> FS.entry (<[k := n]> f) k0 = Some Dir.
Proof.
  intros Hk H0. rewrite entry_insert_ne; [exact H0|]. intros ->. contradiction.
Qed.

(** Resolution only looks for directories: where they all stay, a path
    that resolved resolves to the same place. *)
Lemma walk_mono (f f' : gmap path node) (p : list string) :
  (forall k0, FS.entry f k0 = Some Dir -> FS.entry f' k0 = Some Dir) ->
  forall cur k, FS.walk f cur p = inr k -> FS.walk f' cur p = inr k.
Proof.
  intros Hdirs. induction p as [|c p IH]; intros cur k; simpl; [auto|].
  destruct (FS.is_dotdot c); [|apply IH].
  destruct (FS.entry f cur) as [[d|]|] eqn:E; try discriminate.
  rewrite (Hdirs _ E). apply IH.
Qed.

Lemma resolve_insert (f : gmap path node) (k : path) (n : node) (p kp : path) :
  FS.entry f k <> Some Dir ->
  FS.resolve f p = inr kp -> FS.resolve (<[k := n]> f) p = inr kp.
Proof.
  intros Hk. unfold FS.resolve. apply walk_mono.
  intros k0. apply insert_keeps_dirs. exact Hk.
Qed.

(** A new entry leaves every node that was reachable as it was. *)
Lemma node_at_insert_keeps (f : gmap path node) (k q : path) (n m : node) :
  FS.entry f k = None ->
  FS.node_at f q = Some m -> FS.node_at (<[k := n]> f) q = Some m.
Proof.
  intros Hk. unfold FS.node_at.
  destruct (FS.resolve f q) as [e|kq] eqn:Hq; [discriminate|]. intros Hm.
  rewrite (resolve_insert f k n q kq) by (rewrite ?Hk; congruence).
  rewrite entry_insert_ne; [exact Hm|]. intros ->. congruence.
Qed.

(** The node put at the place a path resolves to is found through that
    path. *)
Lemma node_at_insert_here (f : gmap path node) (p k : path) (n : node) :
  FS.resolve f p = inr k -> FS.entry f k <> Some Dir ->
  FS.node_at (<[k := n]> f) p = Some n.
Proof.
  intros Hp Hk. unfold FS.node_at.
  rewrite (resolve_insert f k n p k Hk Hp). apply entry_insert_eq. exact Hk.
Qed.

Lemma is_dir_in_node (f : gmap path node) (p : path) :
  FS.is_dir_in f p = true <-> FS.node_at f p = Some Dir.
Proof.
  unfold FS.is_dir_in. destruct (FS.node_at f p) as [[d|]|]; split; congruence.
Qed.

Lemma exists_in_node (f : gmap path node) (p : path) :
  FS.exists_in f p = true <-> exists n, FS.node_at f p = Some n.
Proof.
  unfold FS.exists_in. rewrite bool_decide_eq_true. reflexivity.
Qed.


(** Writing a file into the map keeps the regular files regular files,
    the directories directories, and what exists existing. *)
Lemma is_file_in_insert_file (f : gmap path node) (k q : path) (d : bytes) :
  FS.entry f k <> Some Dir ->
  FS.is_file_in f q = true -> FS.is_file_in (<[k := File d]> f) q = true.
Proof.
  intros Hk. unfold FS.is_file_in, FS.node_at.
  destruct (FS.resolve f q) as [e|kq] eqn:Hq; [discriminate|].
  rewrite (resolve_insert f k (File d) q kq Hk Hq).
  destruct (decide (k = kq)) as [<-|Hne].
  - rewrite entry_insert_eq by exact Hk. reflexivity.
  - rewrite entry_insert_ne by exact Hne. auto.
Qed.

Lemma is_dir_in_insert (f : gmap path node) (k q : path) (n : node) :
  FS.entry f k <> Some Dir ->
  FS.is_dir_in f q = true -> FS.is_dir_in (<[k := n]> f) q = true.
Proof.
  intros Hk. unfold FS.is_dir_in, FS.node_at.
  destruct (FS.resolve f q) as [e|kq] eqn:Hq; [discriminate|].
  rewrite (resolve_insert f k n q kq Hk Hq).
  destruct (decide (k = kq)) as [<-|Hne].
  - destruct (FS.entry f k) as [[d|]|]; congruence.
  - rewrite entry_insert_ne by exact Hne. auto.
Qed.

Lemma exists_in_insert (f : gmap path node) (k q : path) (n : node) :
  FS.entry f k <> Some Dir ->
  FS.exists_in f q = true -> FS.exists_in (<[k := n]> f) q = true.
Proof.
  intros Hk. rewrite !exists_in_node. unfold FS.node_at.
  destruct (FS.resolve f q) as [e|kq] eqn:Hq; [intros [m Hm]; discriminate|].
  rewrite (resolve_insert f k n q kq Hk Hq). intros [m Hm].
  destruct (decide (k = kq)) as [<-|Hne].
  - rewrite entry_insert_eq by exact Hk. eauto.
  - rewrite entry_insert_ne by exact Hne. eauto.
Qed.



(** Where the place of a new node lies in a directory, the parent of the
    path is that directory or leads to one. *)
Lemma parent_dir_of_slot (f : gmap path node) (p k : path) :
  FS.resolve f p = inr k ->
  FS.entry f k <> Some Dir ->
  FS.entry f (parent k) = Some Dir ->
  FS.is_dir_in f (parent p) = true.
Proof.
  intros Hp Hk Hpar.
  assert (Hna : is_anchor p = false).
  { destruct (is_anchor p) eqn:Ha; [|reflexivity]. exfalso. apply Hk.
    rewrite (resolve_no_dotdot f p (anchor_no_dotdot p Ha)) in Hp. injection Hp as <-.
    apply entry_anchor. exact Ha. }
  destruct p as [|c q _] using rev_ind; [discriminate|].
  rewrite parent_snoc by exact Hna. rewrite resolve_snoc in Hp.
  apply is_dir_in_node. unfold FS.node_at.
  destruct (FS.resolve f q) as [e|kq]; [discriminate|].
  destruct (FS.is_dotdot c).
  - destruct (FS.entry f kq) as [[d|]|]; try discriminate. reflexivity.
  - injection Hp as <-.
    assert (Hka : is_anchor (kq ++ [c]) = false).
    { destruct (is_anchor (kq ++ [c])) eqn:Ha; [|reflexivity].
      exfalso. apply Hk. apply entry_anchor. exact Ha. }
    rewrite parent_snoc in Hpar by exact Hka. exact Hpar.
Qed.

(** ** The filesystem calls *)

Lemma os_error_is_os_error (e : FS.errno) (p : path) : is_os_error (FS.os_error e p).
Proof. destruct e; exact I. Qed.

Lemma os_mkdir_cases (p : path) (w : world) :
  (exists e, FS.os_mkdir p w = (inl e, w) /\ is_os_error e)
  \/ (exists k,
        FS.resolve (fs w) p = inr k /\
        FS.entry (fs w) k = None /\
        FS.entry (fs w) (parent k) = Some Dir /\
        FS.os_mkdir p w = (inr tt, World (<[k := Dir]> (fs w)) (trace w ++ [EvMkdir p]))).
Proof.
  unfold FS.os_mkdir.
  destruct (FS.resolve (fs w) p) as [e|k].
  - left. eexists. split; [reflexivity | apply os_error_is_os_error].
  - destruct (FS.entry (fs w) k) as [n|] eqn:Hk.
    + left. eexists. split; [reflexivity | exact I].
    + destruct (FS.entry (fs w) (parent k)) as [[d|]|] eqn:Hpar.
      * left. eexists. split; [reflexivity | apply os_error_is_os_error].
      * right. exists k. split; [reflexivity|]. split; [exact Hk|].
        split; [exact Hpar | reflexivity].
      * left. eexists. split; [reflexivity | apply os_error_is_os_error].
Qed.

Lemma mkdir_parents_rev_unfold (rp : list string) (w : world) :
  FS.mkdir_parents_rev rp w =
    match FS.os_mkdir (rev rp) w with
    | (inr tt, w') => (inr tt, w')
    | (inl (FileNotFoundError q), w') =>
        match rp with
        | [] => (inl (FileNotFoundError q), w')
        | _ :: rp' =>
            if is_anchor (rev rp) then (inl (FileNotFoundError q), w')
            else (FS.mkdir_parents_rev rp' ;;; FS.mkdir_exist_ok (rev rp)) w'
        end
    | (inl e, w') => FS.exist_ok_handler (rev rp) e w'
    end.
Proof. destruct rp; reflexivity. Qed.




Lemma exist_ok_handler_effect (p : path) (e : exn) (w : world) :
  is_os_error e ->
  exists r, FS.exist_ok_handler p e w = (r, w) /\ (forall e', r = inl e' -> is_os_error e').
Proof.
  intros He. unfold FS.exist_ok_handler. destruct (FS.is_dir_in (fs w) p).
  - eexists. split; [reflexivity|]. discriminate.
  - eexists. split; [reflexivity|]. intros e' [= <-]. exact He.
Qed.

Lemma created_effect (k p : path) (w : world) :
  exists r' w' evs,
    (inr tt : exn + unit, World (<[k := Dir]> (fs w)) (trace w ++ [EvMkdir p])) = (r', w') /\
    trace w' = trace w ++ evs /\ Forall quiet evs /\
    (forall e', r' = inl e' -> is_os_error e').
Proof.
  eexists _, _, [EvMkdir p]. repeat split; auto.
  - repeat constructor.
  - discriminate.
Qed.

Lemma mkdir_exist_ok_effect (p : path) (w : world) :
  exists r w' evs,
    FS.mkdir_exist_ok p w = (r, w') /\
    trace w' = trace w ++ evs /\ Forall quiet evs /\
    (forall e, r = inl e -> is_os_error e).
Proof.
  unfold FS.mkdir_exist_ok.
  destruct (os_mkdir_cases p w) as [(e & Hrun & He) | (k & _ & _ & _ & Hrun)]; rewrite Hrun.
  - destruct (exist_ok_handler_effect p e w He) as (r & Hr & Hos).
    exists r, w, []. rewrite app_nil_r. repeat split; auto.
  - apply created_effect.
Qed.

Lemma same_world_effect (r : exn + unit) (w : world) (m : (exn + unit) * world) :
  m = (r, w) ->
  (forall e, r = inl e -> is_os_error e) ->
  exists r' w' evs,
    m = (r', w') /\ trace w' = trace w ++ evs /\ Forall quiet evs /\
    (forall e, r' = inl e -> is_os_error e).
Proof.
  intros -> Hos. exists r, w, []. rewrite app_nil_r. repeat split; auto.
Qed.

Lemma handler_same_world (p : path) (e : exn) (w : world) :
  is_os_error e ->
  exists r' w' evs,
    FS.exist_ok_handler p e w = (r', w') /\ trace w' = trace w ++ evs /\
    Forall quiet evs /\ (forall e', r' = inl e' -> is_os_error e').
Proof.
  intros He. destruct (exist_ok_handler_effect p e w He) as (r & Hr & Hos).
  eapply same_world_effect; eassumption.
Qed.

Lemma raise_same_world (e : exn) (w : world) :
  is_os_error e ->
  exists r' w' evs,
    (inl e : exn + unit, w) = (r', w') /\ trace w' = trace w ++ evs /\
    Forall quiet evs /\ (forall e', r' = inl e' -> is_os_error e').
Proof.
  intros He. eapply same_world_effect; [reflexivity|]. intros e' [= <-]. exact He.
Qed.

(** Creating directories only creates directories, and fails with a
    filesystem error only. *)
Lemma mkdir_parents_rev_effect (rp : list string) (w : world) :
  exists r w' evs,
    FS.mkdir_parents_rev rp w = (r, w') /\
    trace w' = trace w ++ evs /\ Forall quiet evs /\
    (forall e, r = inl e -> is_os_error e).
Proof.
  revert w. induction rp as [|x rp IH]; intros w; rewrite mkdir_parents_rev_unfold.
  - destruct (os_mkdir_cases (rev []) w) as [(e & Hrun & He) | (k & _ & _ & _ & Hrun)];
      rewrite Hrun; [|apply created_effect].
    destruct e; try contradiction;
      solve [apply handler_same_world; exact I | apply raise_same_world; exact I].
  - destruct (os_mkdir_cases (rev (x :: rp)) w) as [(e & Hrun & He) | (k & _ & _ & _ & Hrun)];
      rewrite Hrun; [|apply created_effect].
    destruct e; try contradiction; try solve [apply handler_same_world; exact I].
    destruct (is_anchor (rev (x :: rp))); [apply raise_same_world; exact I|].
    unfold bind.
    destruct (IH w) as (r1 & w1 & evs1 & Hrun1 & Htr1 & Hq1 & Hos1). rewrite Hrun1.
    destruct r1 as [e1|[]].
    + exists (inl e1), w1, evs1. repeat split; auto.
    + destruct (mkdir_exist_ok_effect (rev (x :: rp)) w1)
        as (r2 & w2 & evs2 & Hrun2 & Htr2 & Hq2 & Hos2).
      exists r2, w2, (evs1 ++ evs2). repeat split; auto.
      * rewrite Htr2, Htr1, app_assoc. reflexivity.
      * apply Forall_app. split; assumption.
Qed.

Lemma handler_dir (p : path) (e : exn) (w w' : world) :
  FS.exist_ok_handler p e w = (inr tt, w') -> FS.is_dir_in (fs w') p = true.
Proof.
  unfold FS.exist_ok_handler. destruct (FS.is_dir_in (fs w) p) eqn:Hd; [|discriminate].
  intros [= <-]. exact Hd.
Qed.

Lemma created_dir (p k : path) (w w' : world) :
  FS.resolve (fs w) p = inr k ->
  FS.entry (fs w) k = None ->
  (inr tt : exn + unit, World (<[k := Dir]> (fs w)) (trace w ++ [EvMkdir p])) = (inr tt, w') ->
  FS.is_dir_in (fs w') p = true.
Proof.
  intros Hp Hk [= <-]. simpl. apply is_dir_in_node, node_at_insert_here; [exact Hp|].
  rewrite Hk. discriminate.
Qed.

Lemma mkdir_exist_ok_dir (p : path) (w w' : world) :
  FS.mkdir_exist_ok p w = (inr tt, w') -> FS.is_dir_in (fs w') p = true.
Proof.
  unfold FS.mkdir_exist_ok.
  destruct (os_mkdir_cases p w) as [(e & Hrun & _) | (k & Hp & Hk & _ & Hrun)]; rewrite Hrun.
  - apply handler_dir.
  - apply created_dir; assumption.
Qed.

(** When creating a directory returns, the directory is there. *)
Lemma mkdir_parents_rev_dir (rp : list string) (w w' : world) :
  FS.mkdir_parents_rev rp w = (inr tt, w') -> FS.is_dir_in (fs w') (rev rp) = true.
Proof.
  rewrite mkdir_parents_rev_unfold.
  destruct (os_mkdir_cases (rev rp) w) as [(e & Hrun & He) | (k & Hp & Hk & _ & Hrun)];
    rewrite Hrun; [|apply created_dir; assumption].
  destruct e; try contradiction; try apply handler_dir.
  destruct rp as [|x rp]; [discriminate|].
  destruct (is_anchor (rev (x :: rp))); [discriminate|].
  unfold bind. destruct (FS.mkdir_parents_rev rp w) as [[e1|[]] w1]; [discriminate|].
  apply mkdir_exist_ok_dir.
Qed.

Lemma mkdir_parents_exist_ok_exists (p : path) (w w' : world) :
  FS.mkdir_parents_exist_ok p w = (inr tt, w') -> FS.exists_in (fs w') p = true.
Proof.
  intros H. apply mkdir_parents_rev_dir in H. rewrite rev_involutive in H.
  apply is_dir_in_node in H. apply exists_in_node. eauto.
Qed.

(** What a successful write does, and what it found. *)
Lemma write_bytes_effect (p : path) (d : bytes) (w : world) :
  (exists e, FS.write_bytes p d w = (inl e, w) /\ is_os_error e)
  \/ (exists k,
        FS.resolve (fs w) p = inr k /\
        FS.entry (fs w) k <> Some Dir /\
        FS.entry (fs w) (parent k) = Some Dir /\
        FS.write_bytes p d w =
          (inr tt, World (<[k := File d]> (fs w)) (trace w ++ [EvWrite p d]))).
Proof.
  unfold FS.write_bytes.
  destruct (FS.resolve (fs w) p) as [e|k].
  - left. eexists. split; [reflexivity | apply os_error_is_os_error].
  - destruct (FS.entry (fs w) k) as [[d0|]|] eqn:Hk;
      try (left; eexists; split; [reflexivity | exact I]);
      (destruct (FS.entry (fs w) (parent k)) as [[d1|]|] eqn:Hpar;
       [left; eexists; split; [reflexivity | apply os_error_is_os_error]
       |right; exists k; split; [reflexivity|]; split; [congruence|];
        split; [exact Hpar | reflexivity]
       |left; eexists; split; [reflexivity | apply os_error_is_os_error]]).
Qed.

Lemma write_bytes_at (p k : path) (d : bytes) (w : world) :
  FS.resolve (fs w) p = inr k ->
  FS.entry (fs w) k <> Some Dir ->
  FS.entry (fs w) (parent k) = Some Dir ->
  FS.write_bytes p d w =
    (inr tt, World (<[k := File d]> (fs w)) (trace w ++ [EvWrite p d])).
Proof.
  intros Hp Hk Hpar. unfold FS.write_bytes. rewrite Hp, Hpar.
  destruct (FS.entry (fs w) k) as [[d0|]|]; congruence.
Qed.

(** ** The filesystem calls on paths without [".."] *)







(** What [_save] does, whatever the name and the world: it creates
    directories, logs, and writes the data at the joined path and nowhere
    else; it fails with a filesystem error only, and then has written
    nothing; when it returns, the data is found at the joined path. *)
Lemma save_lands (self : MB.Save) (name : string) (data : bytes) (lvl : Z) (w : world) :
  exists r w' evs,
    MB._save self name data lvl w = (r, w') /\
    trace w' = trace w ++ evs /\
    Forall (saves (joinpath (MB.output self) name) data) evs /\
    (forall e, r = inl e -> is_os_error e /\ Forall quiet evs) /\
    (r = inr tt ->
       FS.node_at (fs w') (joinpath (MB.output self) name) = Some (File data) /\
       FS.is_dir_in (fs w') (parent (joinpath (MB.output self) name)) = true /\
       exists mk, Forall quiet mk /\
         evs = mk ++ [EvLog lvl (MsgSaving (joinpath (MB.output self) name));
                      EvWrite (joinpath (MB.output self) name) data]).
Proof.
  unfold MB._save, bind, FS.mkdir_parents_exist_ok.
  set (p := joinpath (MB.output self) name).
  destruct (mkdir_parents_rev_effect (rev (parent p)) w)
    as (r1 & w1 & evs1 & Hrun1 & Htr1 & Hq1 & Hos1).
  rewrite Hrun1.
  assert (Hq1' : Forall (saves p data) evs1).
  { eapply Forall_impl; [exact Hq1|]. intros ev Hev. left. exact Hev. }
  destruct r1 as [e1|[]].
  - exists (inl e1), w1, evs1. split; [reflexivity|]. split; [exact Htr1|].
    split; [exact Hq1'|]. split; [|discriminate].
    intros e [= <-]. split; [apply Hos1; reflexivity | exact Hq1].
  - unfold log, emit. cbv beta iota.
    set (w2 := World (fs w1) (trace w1 ++ [EvLog lvl (MsgSaving p)])).
    destruct (write_bytes_effect p data w2)
      as [(e & Hrun & He) | (k & Hk & Hnd & Hpar & Hrun)]; rewrite Hrun.
    + exists (inl e), w2, (evs1 ++ [EvLog lvl (MsgSaving p)]).
      split; [reflexivity|]. split; [subst w2; simpl; rewrite Htr1, app_assoc; reflexivity|].
      split; [apply Forall_app; split; [exact Hq1'|]; repeat constructor|].
      split; [|discriminate]. intros e' [= <-]. split; [exact He|].
      apply Forall_app. split; [exact Hq1 | repeat constructor].
    + eexists _, _, (evs1 ++ [EvLog lvl (MsgSaving p); EvWrite p data]).
      split; [reflexivity|].
      split; [subst w2; simpl; rewrite Htr1, <- !app_assoc; reflexivity|].
      split.
      { apply Forall_app. split; [exact Hq1'|].
        constructor; [left; exact I|]. constructor; [right; reflexivity|]. constructor. }
      split; [discriminate|]. intros _. simpl.
      split; [apply node_at_insert_here; assumption|].
      split; [|exists evs1; split; [exact Hq1 | reflexivity]].
      apply is_dir_in_insert; [exact Hnd|].
      eapply parent_dir_of_slot; eassumption.
Qed.

Lemma save_effect (self : MB.Save) (name : string) (data : bytes) (lvl : Z) (w : world) :
  exists r w' evs,
    MB._save self name data lvl w = (r, w') /\
    trace w' = trace w ++ evs /\
    Forall (saves (joinpath (MB.output self) name) data) evs /\
    (forall e, r = inl e -> is_os_error e).
Proof.
  destruct (save_lands self name data lvl w) as (r & w' & evs & Hrun & Htr & Hs & Hfail & _).
  exists r, w', evs. repeat split; try assumption. intros e He. apply (Hfail e He).
Qed.


(** ** Planning *)

Lemma filter_map_commute {A B} (f : A -> B) (p : B -> bool) (l : list A) :
  map f (List.filter (fun x => p (f x)) l) = List.filter p (map f l).
Proof.
  induction l as [|x l IH]; simpl; [reflexivity|].
  destruct (p (f x)); simpl; congruence.
Qed.

Lemma filter_filter_swap {A} (p q : A -> bool) (l : list A) :
  List.filter p (List.filter q l) = List.filter q (List.filter p l).
Proof.
  induction l as [|x l IH]; simpl; [reflexivity|].
  destruct (p x) eqn:Hp, (q x) eqn:Hq; simpl; rewrite ?Hp, ?Hq, IH; reflexivity.
Qed.

Lemma fnmatch_filter_is_filter os pat :
  exists p, forall l, Fnmatch.filter os l pat = List.filter p l.
Proof.
  destruct os; eexists; intros l; reflexivity.
Qed.

Lemma slice_to_nonneg {A} (l : list A) n :
  0 <= n -> slice_to l n = take (Z.to_nat n) l.
Proof.
  intros Hn. unfold slice_to. destruct (0 <=? n) eqn:E; [reflexivity|lia].
Qed.

Lemma truthy_int_pos n : 1 <= n -> truthy_int (Some n) = true.
Proof.
  intros Hn. simpl. destruct (n =? 0) eqn:E; [lia|reflexivity].
Qed.

(** The raw-data plan without [--force]: pattern and existence filters,
    then the limit. *)
Lemma get_paths_unforced os self w :
  MB.force (MB.All_save self) = false ->
  MB._get_paths os self w =
    (inr (let kept := List.filter (fun id => negb (have_raw self w id))
                        (raw_candidates os self) in
          if truthy_int (MB.limit self)
          then slice_to kept (default 0 (MB.limit self)) else kept), w).
Proof.
  intros Hf. unfold MB._get_paths, raw_candidates, bind, FS.reads, have_raw.
  rewrite Hf. simpl.
  rewrite (filter_map_commute MB.FilePath
             (fun id => negb (FS.exists_in (fs w) (joinpath (MB.output (MB.All_save self)) id)))).
  destruct (truthy_str (MB.pattern self)).
  - destruct (fnmatch_filter_is_filter os (default "" (MB.pattern self))) as [p Hp].
    rewrite !Hp, filter_filter_swap.
    destruct (truthy_int (MB.limit self)); reflexivity.
  - destruct (truthy_int (MB.limit self)); reflexivity.
Qed.

(** The raw-data plan under [--force]. *)
Lemma get_paths_forced os self w :
  MB.force (MB.All_save self) = true ->
  MB._get_paths os self w =
    (inr (if truthy_int (MB.limit self)
          then slice_to (raw_candidates os self) (default 0 (MB.limit self))
          else raw_candidates os self), w).
Proof.
  intros Hf. unfold MB._get_paths, raw_candidates, bind, ret.
  rewrite Hf. simpl.
  destruct (truthy_str (MB.pattern self)), (truthy_int (MB.limit self)); reflexivity.
Qed.

(** The bundle plan once the bundles directory exists and without
    [--force]. *)
Lemma get_bundle_names_unforced self w :
  Assets.force self = false ->
  FS.exists_in (fs w) (bundles_dir self) = true ->
  Assets._get_bundle_names self w =
    (inr (let kept := List.filter (fun id => negb (have_bundle self w id))
                        (bundle_names (Assets.client self)) in
          if truthy_int (Assets.limit self)
          then slice_to kept (default 0 (Assets.limit self)) else kept), w).
Proof.
  intros Hf Hd.
  unfold Assets._get_bundle_names, bind, FS.exists_, FS.reads, ret, have_bundle, bundles_dir in *.
  rewrite Hf. simpl. rewrite Hd. simpl.
  destruct (truthy_int (Assets.limit self)); reflexivity.
Qed.

(** C1, as the code has it: without [--force] and with a limit of at
    least one (the raw-data command accepts no other), both plans are the
    candidates that are not already there, in candidate order, cut to the
    first [limit] of them after the filtering; the bundle plan is taken
    where [bundles] computes it, after it has created its directory.
    With candidates a, b, c, d of which a is there, and limit 2, both
    plans are b, c. *)
Theorem plan_limit_after_filter :
  (forall os self w n,
      MB.parsed self ->
      MB.force (MB.All_save self) = false ->
      MB.limit self = Some n ->
      MB._get_paths os self w =
        (inr (spec_plan (raw_candidates os self) (have_raw self w) false (Some n)), w))
  /\ (forall self w0 w n,
      FS.mkdir_parents_exist_ok (bundles_dir self) w0 = (inr tt, w) ->
      Assets.force self = false ->
      Assets.limit self = Some n -> 1 <= n ->
      Assets._get_bundle_names self w =
        (inr (spec_plan (bundle_names (Assets.client self)) (have_bundle self w)
                false (Some n)), w))
  /\ (forall os, MB._get_paths os (all_abcd false (Some 2)) world_a = (inr ["b"; "c"], world_a))
  /\ Assets._get_bundle_names (save_abcd false (Some 2)) world_a = (inr ["b"; "c"], world_a).
Proof.
  split; [|split; [|split]].
  - intros os self w n [_ Hn] Hf Hl. rewrite Hl in Hn.
    rewrite (get_paths_unforced os self w Hf), Hl.
    rewrite truthy_int_pos by assumption. simpl. rewrite slice_to_nonneg by lia. reflexivity.
  - intros self w0 w n Hmk Hf Hl Hn.
    pose proof (mkdir_parents_exist_ok_exists _ _ _ Hmk) as Hd.
    rewrite (get_bundle_names_unforced self w Hf Hd), Hl.
    rewrite truthy_int_pos by assumption. simpl. rewrite slice_to_nonneg by lia. reflexivity.
  - intros os. rewrite get_paths_unforced by reflexivity. destruct os; vm_compute; reflexivity.
  - rewrite get_bundle_names_unforced by (vm_compute; reflexivity). vm_compute. reflexivity.
Qed.

Lemma plan_limit_after_filter_witness :
  MB._get_paths Fnmatch.ntpath (all_abcd false (Some 3)) world_a =
    (inr (spec_plan (raw_candidates Fnmatch.ntpath (all_abcd false (Some 3)))
            (have_raw (all_abcd false (Some 3)) world_a) false (Some 3)), world_a)
  /\ Assets._get_bundle_names (save_abcd false (Some 3)) world_a =
    (inr (spec_plan abcd (have_bundle (save_abcd false (Some 3)) world_a) false (Some 3)),
     world_a).
Proof.
  destruct plan_limit_after_filter as [Hraw [Hbundle _]].
  split.
  - apply Hraw; [split; simpl; lia | reflexivity | reflexivity].
  - apply (Hbundle (save_abcd false (Some 3)) world_a world_a 3);
      [vm_compute; reflexivity | reflexivity | reflexivity | lia].
Defined.

(** C1 as stated fails for the bundle plan at limit 0, which the option
    accepts: the test [if self.limit] takes it for no limit, and the plan
    keeps all three missing bundles instead of none. *)
Lemma plan_limit_zero_not_truncated :
  Assets._get_bundle_names (save_abcd false (Some 0)) world_a =
    (inr ["b"; "c"; "d"], world_a)
  /\ fst (Assets._get_bundle_names (save_abcd false (Some 0)) world_a) <>
     inr (spec_plan abcd (have_bundle (save_abcd false (Some 0)) world_a) false (Some 0)).
Proof.
  assert (H : Assets._get_bundle_names (save_abcd false (Some 0)) world_a =
              (inr ["b"; "c"; "d"], world_a)).
  { rewrite get_bundle_names_unforced by (vm_compute; reflexivity).
    vm_compute. reflexivity. }
  split; [exact H|]. rewrite H. simpl. discriminate.
Qed.

(** Under [--force] the bundle plan is every bundle name, whatever the
    limit. *)
Lemma get_bundle_names_forced self w :
  Assets.force self = true ->
  Assets._get_bundle_names self w = (inr (bundle_names (Assets.client self)), w).
Proof.
  intros Hf. unfold Assets._get_bundle_names, bind, ret. rewrite Hf. reflexivity.
Qed.

(** The raw-data plan under [--force] is the candidates cut to the
    limit. *)
Lemma get_paths_forced_limit os self w n :
  MB.force (MB.All_save self) = true ->
  MB.limit self = Some n -> 1 <= n ->
  MB._get_paths os self w =
    (inr (spec_plan (raw_candidates os self) (have_raw self w) true (Some n)), w).
Proof.
  intros Hf Hl Hn. rewrite (get_paths_forced os self w Hf), Hl.
  rewrite truthy_int_pos by assumption. simpl. rewrite slice_to_nonneg by lia. reflexivity.
Qed.

(** C2 at the bundle command: with [--force], limit 2 and bundle names
    a, b, c, d, [_get_bundle_names] returns all four names, where the
    claim (and the raw-data command on the same input) gives a, b. *)
Theorem forced_bundle_plan_ignores_limit :
  Assets._get_bundle_names (save_abcd true (Some 2)) world_a = (inr abcd, world_a)
  /\ spec_plan abcd (have_bundle (save_abcd true (Some 2)) world_a) true (Some 2) = ["a"; "b"]
  /\ MB._get_paths Fnmatch.posixpath (all_abcd true (Some 2)) world_a =
       (inr ["a"; "b"], world_a).
Proof.
  split; [|split].
  - apply get_bundle_names_forced. reflexivity.
  - reflexivity.
  - rewrite (get_paths_forced_limit _ _ _ 2) by (reflexivity || lia). reflexivity.
Qed.

(** ** The single-file download *)

(** C10: without [--force], an existing destination makes [File.main]
    raise the already-exists error before any validation: nothing is
    fetched or written, whatever the manifest and the validation flag. *)
Theorem existing_file_precedes_validation (self : MB.File) (w : world) :
  MB.force (MB.File_save self) = false ->
  FS.exists_in (fs w) (file_dest self) = true ->
  MB.File_main self w =
    (inl (RuntimeError (MB.name self +:+ " already exists - use --force to download anyways")),
     w).
Proof.
  intros Hf He. unfold MB.File_main, bind, FS.exists_, FS.reads, file_dest in *.
  rewrite Hf. simpl. rewrite He. reflexivity.
Qed.

Lemma existing_file_precedes_validation_witness :
  MB.File_main (file_xy false false) world_xy =
    (inl (RuntimeError "x/y.bin already exists - use --force to download anyways"), world_xy).
Proof.
  apply (existing_file_precedes_validation (file_xy false false) world_xy).
  - reflexivity.
  - vm_compute. reflexivity.
Defined.

Lemma existsb_none {A} (p : A -> bool) (l : list A) :
  (forall x, In x l -> p x = false) -> existsb p l = false.
Proof.
  induction l as [|x l IH]; intros H; simpl; [reflexivity|].
  rewrite (H x) by (left; reflexivity). apply IH. intros y Hy. apply H. right. exact Hy.
Qed.

(** C3, as the code has it: when validation is not skipped, no manifest
    row has the requested [FilePath], and the already-exists check does
    not fire ([--force] is given or the destination is absent),
    [File.main] raises the validation error; the world is left as it was:
    no fetch, no write. *)
Theorem validation_gate (self : MB.File) (w : world) :
  MB.skip_validation self = false ->
  (forall row, In row (MB.raw_data_info (MB.File_save self)) ->
               MB.FilePath row <> MB.name self) ->
  MB.force (MB.File_save self) = true \/ FS.exists_in (fs w) (file_dest self) = false ->
  MB.File_main self w = (inl (ValueError_invalid_file (MB.name self)), w).
Proof.
  intros Hs Hrows Hgate.
  assert (Hnone : existsb (fun row => String.eqb (MB.FilePath row) (MB.name self))
                    (MB.raw_data_info (MB.File_save self)) = false).
  { apply existsb_none. intros row Hin. apply String.eqb_neq. apply Hrows. exact Hin. }
  unfold MB.File_main, bind, FS.exists_, FS.reads, file_dest, ret in *.
  destruct Hgate as [Hf | He].
  - rewrite Hf. simpl. rewrite Hs, Hnone. reflexivity.
  - destruct (MB.force (MB.File_save self)); simpl; rewrite ?He, Hs, Hnone; reflexivity.
Qed.

Lemma validation_gate_witness :
  MB.File_main (file_xy true false) world_xy =
    (inl (ValueError_invalid_file "x/y.bin"), world_xy).
Proof.
  apply (validation_gate (file_xy true false) world_xy).
  - reflexivity.
  - intros row Hin. vm_compute in Hin.
    destruct Hin as [<- | [<- | [<- | [<- | []]]]]; discriminate.
  - left. reflexivity.
Defined.

(** C3 as stated fails when the requested file is already there and
    [--force] is not given: the same request, against a manifest lacking
    the name, raises the already-exists error instead. *)
Lemma validation_gate_behind_existing_file :
  (forall row, In row (MB.raw_data_info (MB.File_save (file_xy false false))) ->
               MB.FilePath row <> "x/y.bin")
  /\ MB.skip_validation (file_xy false false) = false
  /\ FS.exists_in (fs world_xy) (file_dest (file_xy false false)) = true
  /\ fst (MB.File_main (file_xy false false) world_xy) =
     inl (RuntimeError "x/y.bin already exists - use --force to download anyways")
  /\ fst (MB.File_main (file_xy false false) world_xy) <>
     inl (ValueError_invalid_file "x/y.bin").
Proof.
  split; [|split; [|split; [|split]]].
  - intros row Hin. vm_compute in Hin.
    destruct Hin as [<- | [<- | [<- | [<- | []]]]]; discriminate.
  - reflexivity.
  - vm_compute. reflexivity.
  - vm_compute. reflexivity.
  - vm_compute. discriminate.
Qed.

(** ** Dry runs *)

Lemma for_each_print (f : string -> string) (l : list string) (w : world) :
  for_each l (fun x => print (f x)) w =
    (inr tt, World (fs w) (trace w ++ map (fun x => EvPrint (f x)) l)).
Proof.
  revert w. induction l as [|x l IH]; intros w; simpl.
  - unfold ret. rewrite app_nil_r. destruct w; reflexivity.
  - unfold bind, print, emit. rewrite IH. simpl. rewrite <- app_assoc. reflexivity.
Qed.

(** Planning reads the filesystem and nothing else. *)
Lemma get_paths_pure os self w :
  exists paths, MB._get_paths os self w = (inr paths, w).
Proof.
  destruct (MB.force (MB.All_save self)) eqn:Hf.
  - eexists. apply get_paths_forced. exact Hf.
  - eexists. apply get_paths_unforced. exact Hf.
Qed.

(** C4: with [dry_run] set, [All.main] on a non-empty plan only reports:
    the world after it differs from the world before by two log lines and
    one printed line per planned file, in sorted order; the filesystem is
    the same, and no fetch, directory creation or write is among the new
    events. *)
Theorem dry_run_purity os (self : MB.All) (sched : list nat) (w : world) :
  MB.dry_run self = true ->
  exists paths,
    MB._get_paths os self w = (inr paths, w) /\
    (paths <> [] ->
     MB.All_main os self sched w =
       (inr tt,
        World (fs w)
          (trace w ++
           EvLog INFO (MsgDownloading true (length paths) (MB.parallel self)) ::
           EvLog INFO MsgFilesThatWould ::
           map (fun path => EvPrint (" - " +:+ path)) (sorted paths)))).
Proof.
  intros Hdry. destruct (get_paths_pure os self w) as [paths Hp].
  exists paths. split; [exact Hp|]. intros Hne.
  unfold MB.All_main, bind. rewrite Hp.
  destruct paths as [|p paths]; [congruence|].
  rewrite Hdry. unfold log, emit. simpl fst; simpl snd.
  cbv beta iota. simpl trace. simpl fs.
  rewrite for_each_print. simpl. rewrite <- !app_assoc. reflexivity.
Qed.

Lemma dry_run_purity_witness :
  MB.All_main Fnmatch.posixpath (dry_abcd) [] world_a =
    (inr tt,
     World (fs world_a)
       [EvLog INFO (MsgDownloading true 3 4); EvLog INFO MsgFilesThatWould;
        EvPrint " - b"; EvPrint " - c"; EvPrint " - d"]).
Proof.
  destruct (dry_run_purity Fnmatch.posixpath dry_abcd [] world_a) as [paths [Hp Hmain]].
  - reflexivity.
  - rewrite get_paths_unforced in Hp by reflexivity.
    injection Hp as <-. apply Hmain. vm_compute. discriminate.
Defined.

(** ** Pattern matching *)

Lemma list_ascii_of_string_app (a b : string) :
  list_ascii_of_string (a +:+ b) = (list_ascii_of_string a ++ list_ascii_of_string b)%list.
Proof.
  induction a as [|c a IH]; simpl; [reflexivity|]. rewrite <- IH. reflexivity.
Qed.

Lemma translate_from_literal (l rest : list ascii) (after_star : bool) :
  forallb literal_char l = true ->
  Fnmatch.translate_from (l ++ rest) 0 after_star =
    (map Fnmatch.Lit l ++
     Fnmatch.translate_from rest 0 (match l with [] => after_star | _ => false end))%list.
Proof.
  revert after_star. induction l as [|c l IH]; intros after_star Hl; [reflexivity|].
  simpl in Hl. apply andb_true_iff in Hl as [Hc Hl].
  unfold literal_char in Hc. apply negb_true_iff in Hc.
  apply orb_false_iff in Hc as [Hc Hbr]. apply orb_false_iff in Hc as [Hst Hq].
  simpl. rewrite Hst, Hq, Hbr. rewrite (IH false Hl).
  destruct l; reflexivity.
Qed.

Lemma matches_star_unfold (ts : list Fnmatch.tok) (s : list ascii) :
  Fnmatch.matches (Fnmatch.Star :: ts) s =
    Fnmatch.matches ts s ||
    match s with
    | [] => false
    | _ :: s' => Fnmatch.matches (Fnmatch.Star :: ts) s'
    end.
Proof. destruct s; reflexivity. Qed.

(** A star swallows any text in front of what the rest matches. *)
Lemma matches_star_skip (ts : list Fnmatch.tok) (mid s : list ascii) :
  Fnmatch.matches ts s = true ->
  Fnmatch.matches (Fnmatch.Star :: ts) (mid ++ s) = true.
Proof.
  intros H. induction mid as [|c mid IH]; rewrite matches_star_unfold.
  - simpl. rewrite H. reflexivity.
  - change ((c :: mid) ++ s)%list with (c :: (mid ++ s))%list. cbv beta iota.
    rewrite IH. apply orb_true_r.
Qed.

(** Matching composes: what matches the first atoms, followed by what
    matches the last ones, matches them all. *)
Lemma matches_app (ts1 ts : list Fnmatch.tok) (s : list ascii) :
  Fnmatch.matches ts s = true ->
  forall s1, Fnmatch.matches ts1 s1 = true -> Fnmatch.matches (ts1 ++ ts) (s1 ++ s) = true.
Proof.
  intros Hs. induction ts1 as [|t ts1 IH]; intros s1 H1.
  - destruct s1; [exact Hs | discriminate].
  - assert (Hstep : forall x s1', t <> Fnmatch.Star ->
              Fnmatch.matches (t :: ts1) (x :: s1') = true ->
              Fnmatch.matches ((t :: ts1) ++ ts) ((x :: s1') ++ s) = true).
    { intros x s1' Ht H. destruct t; try congruence; simpl in *;
        first [ apply andb_true_iff in H as [Hx Hrest]; rewrite Hx; apply IH; exact Hrest
              | apply IH; exact H ]. }
    destruct t; try (destruct s1 as [|x s1']; [discriminate | apply Hstep; [discriminate | exact H1]]).
    change ((Fnmatch.Star :: ts1) ++ ts) with (Fnmatch.Star :: (ts1 ++ ts)).
    induction s1 as [|x s1' IHs]; rewrite matches_star_unfold in H1 |- *.
    + rewrite orb_false_r in H1. rewrite (IH [] H1). reflexivity.
    + apply orb_true_iff in H1 as [H1 | H1].
      * rewrite (IH _ H1). reflexivity.
      * change ((x :: s1') ++ s) with (x :: (s1' ++ s)). cbv beta iota.
        rewrite (IHs H1). apply orb_true_r.
Qed.

(** A star inside a pattern matches any text, separators included,
    between a text matched by what precedes it and a text matched by what
    follows it. *)
Lemma star_anywhere_spans (pat : string) (ts1 ts2 : list Fnmatch.tok)
  (s1 s2 mid : string) :
  Fnmatch.translate pat = ts1 ++ Fnmatch.Star :: ts2 ->
  Fnmatch.matches ts1 (list_ascii_of_string s1) = true ->
  Fnmatch.matches ts2 (list_ascii_of_string s2) = true ->
  Fnmatch._compile_pattern pat (s1 +:+ mid +:+ s2) = true.
Proof.
  intros Hpat H1 H2. unfold Fnmatch._compile_pattern.
  rewrite Hpat, !list_ascii_of_string_app.
  apply matches_app; [|exact H1]. apply matches_star_skip. exact H2.
Qed.

Lemma ascii_eqb_refl (c : ascii) : Ascii.eqb c c = true.
Proof. apply Ascii.eqb_eq. reflexivity. Qed.

Lemma matches_literal_prefix (l : list ascii) (ts : list Fnmatch.tok) (s : list ascii) :
  Fnmatch.matches (map Fnmatch.Lit l ++ ts) (l ++ s) = Fnmatch.matches ts s.
Proof.
  induction l as [|c l IH]; [reflexivity|].
  simpl. rewrite ascii_eqb_refl. exact IH.
Qed.

Lemma matches_literal (l : list ascii) :
  Fnmatch.matches (map Fnmatch.Lit l) l = true.
Proof.
  pose proof (matches_literal_prefix l [] []) as H.
  rewrite !app_nil_r in H. exact H.
Qed.

Lemma translate_from_literal_end (l : list ascii) (after_star : bool) :
  forallb literal_char l = true ->
  Fnmatch.translate_from l 0 after_star = map Fnmatch.Lit l.
Proof.
  intros Hl. pose proof (translate_from_literal l [] after_star Hl) as E.
  rewrite !app_nil_r in E. exact E.
Qed.

Lemma after_literal_no_star (l : list ascii) :
  match l with [] => false | _ :: _ => false end = false.
Proof. destruct l; reflexivity. Qed.

Lemma matches_literal_iff (l s : list ascii) :
  Fnmatch.matches (map Fnmatch.Lit l) s = true <-> s = l.
Proof.
  revert s. induction l as [|c l IH]; intros s.
  - destruct s; simpl; split; congruence.
  - destruct s as [|x s]; simpl; [split; congruence|].
    rewrite andb_true_iff, IH. split.
    + intros [Hx ->]. apply Ascii.eqb_eq in Hx as ->. reflexivity.
    + intros [= -> ->]. split; [apply ascii_eqb_refl | reflexivity].
Qed.

Lemma list_ascii_of_string_inj (a b : string) :
  list_ascii_of_string a = list_ascii_of_string b -> a = b.
Proof.
  intros H. rewrite <- (string_of_list_ascii_of_string a), H.
  apply string_of_list_ascii_of_string.
Qed.

(** Literal atoms take exactly their own text off the front of a name. *)
Lemma matches_lits_iff (l : list ascii) (ts : list Fnmatch.tok) (s : list ascii) :
  Fnmatch.matches (map Fnmatch.Lit l ++ ts) s = true <->
  exists s', s = l ++ s' /\ Fnmatch.matches ts s' = true.
Proof.
  revert s. induction l as [|c l IH]; intros s.
  - simpl. split; [intros H; exists s; auto | intros (s' & -> & H); exact H].
  - destruct s as [|x s].
    + simpl. split; [discriminate | intros (s' & E & _); discriminate].
    + change (Fnmatch.matches (map Fnmatch.Lit (c :: l) ++ ts) (x :: s))
        with (Ascii.eqb x c && Fnmatch.matches (map Fnmatch.Lit l ++ ts) s).
      rewrite andb_true_iff, IH, Ascii.eqb_eq. split.
      * intros [-> (s' & -> & H)]. exists s'. auto.
      * intros (s' & E & H). injection E as -> ->. eauto.
Qed.

(** A star takes any text, and nothing else is skipped. *)
Lemma matches_star_iff (ts : list Fnmatch.tok) (s : list ascii) :
  Fnmatch.matches (Fnmatch.Star :: ts) s = true <->
  exists mid s2, s = mid ++ s2 /\ Fnmatch.matches ts s2 = true.
Proof.
  split.
  - induction s as [|x s IH]; rewrite matches_star_unfold; intros H;
      apply orb_true_iff in H as [H|H].
    + exists [], []. auto.
    + discriminate.
    + exists [], (x :: s). auto.
    + destruct (IH H) as (mid & s2 & -> & H2). exists (x :: mid), s2. auto.
  - intros (mid & s2 & -> & H). apply matches_star_skip. exact H.
Qed.

(** Every other atom takes exactly one character, which it has to
    accept. *)
Lemma matches_one_iff (t : Fnmatch.tok) (ts : list Fnmatch.tok) (s : list ascii) :
  t <> Fnmatch.Star ->
  (Fnmatch.matches (t :: ts) s = true <->
   exists c s', s = c :: s' /\ Fnmatch.tok_accepts t c = true /\
                Fnmatch.matches ts s' = true).
Proof.
  intros Ht.
  assert (Hun : forall x s', Fnmatch.matches (t :: ts) (x :: s') =
                             Fnmatch.tok_accepts t x && Fnmatch.matches ts s').
  { intros x s'. destruct t; [congruence | reflexivity..]. }
  destruct s as [|x s].
  - split; [|intros (c & s' & E & _); discriminate].
    destruct t; [congruence | discriminate..].
  - rewrite Hun, andb_true_iff. split.
    + intros [H1 H2]. exists x, s. auto.
    + intros (c & s' & E & H1 & H2). injection E as -> ->. auto.
Qed.

Lemma translate_star_between (l1 l2 : string) :
  literal l1 = true -> literal l2 = true ->
  Fnmatch.translate (l1 +:+ "*" +:+ l2) =
    map Fnmatch.Lit (list_ascii_of_string l1) ++
    Fnmatch.Star :: map Fnmatch.Lit (list_ascii_of_string l2).
Proof.
  unfold literal, Fnmatch.translate. intros H1 H2.
  rewrite !list_ascii_of_string_app.
  rewrite (translate_from_literal _ _ false H1), after_literal_no_star.
  change (list_ascii_of_string "*") with ["*"%char].
  change (Fnmatch.translate_from (["*"%char] ++ list_ascii_of_string l2) 0 false)
    with (Fnmatch.Star :: Fnmatch.translate_from (list_ascii_of_string l2) 0 true).
  rewrite (translate_from_literal_end _ true H2). reflexivity.
Qed.

Lemma translate_question_between (l1 l2 : string) :
  literal l1 = true -> literal l2 = true ->
  Fnmatch.translate (l1 +:+ "?" +:+ l2) =
    map Fnmatch.Lit (list_ascii_of_string l1) ++
    Fnmatch.AnyChar :: map Fnmatch.Lit (list_ascii_of_string l2).
Proof.
  unfold literal, Fnmatch.translate. intros H1 H2.
  rewrite !list_ascii_of_string_app.
  rewrite (translate_from_literal _ _ false H1), after_literal_no_star.
  change (list_ascii_of_string "?") with ["?"%char].
  change (Fnmatch.translate_from (["?"%char] ++ list_ascii_of_string l2) 0 false)
    with (Fnmatch.AnyChar :: Fnmatch.translate_from (list_ascii_of_string l2) 0 false).
  rewrite (translate_from_literal_end _ false H2). reflexivity.
Qed.

(** The bracket expression [[!x]] for a character [x] other than the
    closing bracket and the hyphen: the set of all characters but [x]. *)
Lemma translate_from_negated_char (x : ascii) (rest : list ascii) (after_star : bool) :
  x <> "]"%char -> x <> "-"%char ->
  Fnmatch.translate_from ("["%char :: "!"%char :: x :: "]"%char :: rest) 0 after_star =
    Fnmatch.Class true [Fnmatch.Single x] :: Fnmatch.translate_from rest 0 false.
Proof.
  intros Hb Hh.
  destruct x as [[] [] [] [] [] [] [] []];
    try (exfalso; apply Hb; reflexivity);
    try (exfalso; apply Hh; reflexivity);
    reflexivity.
Qed.

Lemma translate_negated_char_between (l1 l2 : string) (x : ascii) :
  literal l1 = true -> literal l2 = true ->
  x <> "]"%char -> x <> "-"%char ->
  Fnmatch.translate (l1 +:+ "[!" +:+ String x ("]" +:+ l2)) =
    map Fnmatch.Lit (list_ascii_of_string l1) ++
    Fnmatch.Class true [Fnmatch.Single x] :: map Fnmatch.Lit (list_ascii_of_string l2).
Proof.
  unfold literal, Fnmatch.translate. intros H1 H2 Hb Hh.
  rewrite list_ascii_of_string_app.
  rewrite (translate_from_literal _ _ false H1), after_literal_no_star.
  change (list_ascii_of_string ("[!" +:+ String x ("]" +:+ l2)))
    with ("["%char :: "!"%char :: x :: "]"%char :: list_ascii_of_string l2).
  rewrite (translate_from_negated_char x _ false Hb Hh).
  rewrite (translate_from_literal_end _ false H2). reflexivity.
Qed.

(** A star between two literal texts: the names that match are those
    that start with the first text and end with the second, whatever lies
    between, separators included. *)
Lemma star_between_literals (l1 l2 name : string) :
  literal l1 = true -> literal l2 = true ->
  (Fnmatch._compile_pattern (l1 +:+ "*" +:+ l2) name = true <->
   exists mid, name = l1 +:+ mid +:+ l2).
Proof.
  intros H1 H2. unfold Fnmatch._compile_pattern.
  rewrite (translate_star_between l1 l2 H1 H2), matches_lits_iff. split.
  - intros (s' & Hs & Hm). apply matches_star_iff in Hm as (mid & s2 & -> & Hm).
    apply matches_literal_iff in Hm as ->.
    exists (string_of_list_ascii mid). apply list_ascii_of_string_inj.
    rewrite !list_ascii_of_string_app, list_ascii_of_string_of_list_ascii. exact Hs.
  - intros [mid ->]. exists (list_ascii_of_string mid ++ list_ascii_of_string l2).
    split; [rewrite !list_ascii_of_string_app; reflexivity|].
    apply matches_star_skip, matches_literal.
Qed.

(** A question mark between two literal texts takes exactly one
    character, whichever it is. *)
Lemma question_mark_between_literals (l1 l2 name : string) :
  literal l1 = true -> literal l2 = true ->
  (Fnmatch._compile_pattern (l1 +:+ "?" +:+ l2) name = true <->
   exists c, name = l1 +:+ String c l2).
Proof.
  intros H1 H2. unfold Fnmatch._compile_pattern.
  rewrite (translate_question_between l1 l2 H1 H2), matches_lits_iff. split.
  - intros (s' & Hs & Hm).
    apply matches_one_iff in Hm as (c & s2 & -> & _ & Hm); [|discriminate].
    apply matches_literal_iff in Hm as ->.
    exists c. apply list_ascii_of_string_inj.
    rewrite list_ascii_of_string_app. exact Hs.
  - intros [c ->]. exists (c :: list_ascii_of_string l2).
    split; [rewrite list_ascii_of_string_app; reflexivity|].
    apply matches_one_iff; [discriminate|].
    exists c, (list_ascii_of_string l2). repeat split. apply matches_literal.
Qed.

(** A negated one-character set between two literal texts takes exactly
    one character, any but the one of the set. *)
Lemma negated_char_between_literals (l1 l2 name : string) (x : ascii) :
  literal l1 = true -> literal l2 = true ->
  x <> "]"%char -> x <> "-"%char ->
  (Fnmatch._compile_pattern (l1 +:+ "[!" +:+ String x ("]" +:+ l2)) name = true <->
   exists c, c <> x /\ name = l1 +:+ String c l2).
Proof.
  intros H1 H2 Hb Hh. unfold Fnmatch._compile_pattern.
  rewrite (translate_negated_char_between l1 l2 x H1 H2 Hb Hh), matches_lits_iff.
  assert (Hacc : forall c, Fnmatch.tok_accepts (Fnmatch.Class true [Fnmatch.Single x]) c = true
                           <-> c <> x).
  { intros c. unfold Fnmatch.tok_accepts, existsb, Fnmatch.item_matches.
    destruct (Ascii.eqb_spec c x) as [->|Hne]; simpl; split; congruence. }
  split.
  - intros (s' & Hs & Hm).
    apply matches_one_iff in Hm as (c & s2 & -> & Hc & Hm); [|discriminate].
    apply matches_literal_iff in Hm as ->.
    exists c. split; [apply Hacc; exact Hc|]. apply list_ascii_of_string_inj.
    rewrite list_ascii_of_string_app. exact Hs.
  - intros (c & Hc & ->). exists (c :: list_ascii_of_string l2).
    split; [rewrite list_ascii_of_string_app; reflexivity|].
    apply matches_one_iff; [discriminate|].
    exists c, (list_ascii_of_string l2).
    split; [reflexivity|]. split; [apply Hacc; exact Hc | apply matches_literal].
Qed.

(** What the search keeps, on either kind of host: the entries whose
    path, put through [normcase], matches the pattern put through
    [normcase]. *)
Lemma iter_matching_contents_normcase os (self : Assets.Find) (src_paths : list path) :
  Assets.iter_matching_contents os self src_paths =
    (List.filter
       (fun '(_, content_path) =>
          Fnmatch._compile_pattern (Fnmatch.normcase os (Assets.pattern self))
            (Fnmatch.normcase os content_path))
       (fst (Assets.iter_bundle_contents (Assets.contents self) src_paths)),
     snd (Assets.iter_bundle_contents (Assets.contents self) src_paths)).
Proof.
  unfold Assets.iter_matching_contents.
  destruct (Assets.iter_bundle_contents (Assets.contents self) src_paths) as [found stop].
  destruct os; reflexivity.
Qed.

(** C7: the matcher works on the whole path string, and on nothing
    more.  A star anywhere in a pattern matches any text, slashes
    included, between a text matched by the part of the pattern before it
    and a text matched by the part after it.  Between two literal texts,
    a star matches exactly the names that start with the first and end
    with the second; a question mark exactly those with one character in
    between, whichever it is; a negated one-character set exactly those
    with one character in between other than that of the set.  So
    [a*.txt] matches [a/b/c.txt] but neither [b/c.txt] nor
    [a/b/c.txt.bak], [a?c] matches [a/c] but neither [ac] nor [a/xc], and
    [a[!x]c] matches [a/c] but not [axc]; the search of bundle contents
    for [a*.txt] keeps, on either kind of host, exactly the entries whose
    path starts with [a] and ends with [.txt] once put through
    [normcase]. *)
Theorem glob_wildcards_span_separators :
  (forall (pat : string) (ts1 ts2 : list Fnmatch.tok) (s1 s2 mid : string),
      Fnmatch.translate pat = ts1 ++ Fnmatch.Star :: ts2 ->
      Fnmatch.matches ts1 (list_ascii_of_string s1) = true ->
      Fnmatch.matches ts2 (list_ascii_of_string s2) = true ->
      Fnmatch._compile_pattern pat (s1 +:+ mid +:+ s2) = true)
  /\ (forall l1 l2 name : string,
      literal l1 = true -> literal l2 = true ->
      (Fnmatch._compile_pattern (l1 +:+ "*" +:+ l2) name = true <->
       exists mid, name = l1 +:+ mid +:+ l2))
  /\ (forall l1 l2 name : string,
      literal l1 = true -> literal l2 = true ->
      (Fnmatch._compile_pattern (l1 +:+ "?" +:+ l2) name = true <->
       exists c, name = l1 +:+ String c l2))
  /\ (forall (l1 l2 name : string) (x : ascii),
      literal l1 = true -> literal l2 = true ->
      x <> "]"%char -> x <> "-"%char ->
      (Fnmatch._compile_pattern (l1 +:+ "[!" +:+ String x ("]" +:+ l2)) name = true <->
       exists c, c <> x /\ name = l1 +:+ String c l2))
  /\ (Fnmatch._compile_pattern "a*.txt" "a/b/c.txt" = true
      /\ Fnmatch._compile_pattern "a*.txt" "b/c.txt" = false
      /\ Fnmatch._compile_pattern "a*.txt" "a/b/c.txt.bak" = false
      /\ Fnmatch._compile_pattern "a?c" "a/c" = true
      /\ Fnmatch._compile_pattern "a?c" "ac" = false
      /\ Fnmatch._compile_pattern "a?c" "a/xc" = false
      /\ Fnmatch._compile_pattern "a[!x]c" "a/c" = true
      /\ Fnmatch._compile_pattern "a[!x]c" "axc" = false
      /\ Fnmatch._compile_pattern "[a-c]/x" "b/x" = true
      /\ Fnmatch._compile_pattern "[a-c]/x" "d/x" = false)
  /\ (forall os (self : Assets.Find) (src : path) (names : list string),
      Assets.pattern self = "a*.txt" ->
      Assets.contents self src = inr names ->
      snd (Assets.iter_matching_contents os self [src]) = None /\
      forall s cp,
        In (s, cp) (fst (Assets.iter_matching_contents os self [src])) <->
        s = src /\ In cp names /\
        exists mid, Fnmatch.normcase os cp = "a" +:+ mid +:+ ".txt").
Proof.
  split; [exact star_anywhere_spans|].
  split; [exact star_between_literals|].
  split; [exact question_mark_between_literals|].
  split; [exact negated_char_between_literals|].
  split; [repeat split; reflexivity|].
  intros os self src names Hp Hc. rewrite iter_matching_contents_normcase.
  simpl. rewrite Hc, Hp. simpl. split; [reflexivity|].
  assert (Hn : Fnmatch.normcase os "a*.txt" = "a*.txt") by (destruct os; reflexivity).
  rewrite Hn. intros s cp. rewrite app_nil_r, filter_In, in_map_iff.
  rewrite (star_between_literals "a" ".txt" (Fnmatch.normcase os cp) eq_refl eq_refl).
  split.
  - intros [(n & E & Hin) Hm]. injection E as <- <-. auto.
  - intros (-> & Hin & Hm). split; [exists cp; auto | exact Hm].
Qed.

Lemma glob_wildcards_span_separators_witness :
  Fnmatch._compile_pattern "[ab]?*.t[!x]t" "a/b/c.tyt" = true
  /\ (Fnmatch._compile_pattern "icons*.png" "icons/ui/button/ok.png" = true <->
      exists mid, "icons/ui/button/ok.png" = "icons" +:+ mid +:+ ".png")
  /\ (Fnmatch._compile_pattern "a?c" "a/c" = true <-> exists c, "a/c" = "a" +:+ String c "c")
  /\ (Fnmatch._compile_pattern "a[!/]c" "a/c" = true <->
      exists c, c <> "/"%char /\ "a/c" = "a" +:+ String c "c")
  /\ (In (["in.bundle"], "a/b/c.txt")
         (fst (Assets.iter_matching_contents Fnmatch.ntpath (find_one "a*.txt" "a/b/c.txt")
                 [["in.bundle"]])) <->
      ["in.bundle"] = ["in.bundle"] /\ In "a/b/c.txt" ["a/b/c.txt"] /\
      exists mid, Fnmatch.normcase Fnmatch.ntpath "a/b/c.txt" = "a" +:+ mid +:+ ".txt").
Proof.
  destruct glob_wildcards_span_separators as (Hany & Hstar & Hq & Hneg & _ & Hfind).
  split; [|split; [|split; [|split]]].
  - apply (Hany "[ab]?*.t[!x]t" [Fnmatch.Class false [Fnmatch.Single "a"; Fnmatch.Single "b"];
                                 Fnmatch.AnyChar]
             [Fnmatch.Lit "."; Fnmatch.Lit "t";
              Fnmatch.Class true [Fnmatch.Single "x"]; Fnmatch.Lit "t"]
             "a/" ".tyt" "b/c"); reflexivity.
  - apply (Hstar "icons" ".png"); reflexivity.
  - apply (Hq "a" "c"); reflexivity.
  - apply (Hneg "a" "c" "a/c" "/"%char); [reflexivity | reflexivity | discriminate | discriminate].
  - destruct (Hfind Fnmatch.ntpath (find_one "a*.txt" "a/b/c.txt") ["in.bundle"]
                ["a/b/c.txt"] eq_refl eq_refl) as [_ H].
    apply H.
Defined.

(** C6, as the code has it: whether case is folded follows the host's
    [os.path], through [normcase], and no option of the command: on an
    [ntpath] host the pattern [*.PNG] finds [icons/a.png]; on a
    [posixpath] host [normcase] changes nothing, the comparison is exact
    and the pattern does not find it. *)
Theorem case_folding_follows_os_path (self : Assets.Find) (src : path) :
  Assets.pattern self = "*.PNG" ->
  Assets.contents self src = inr ["icons/a.png"] ->
  Assets.iter_matching_contents Fnmatch.ntpath self [src] = ([(src, "icons/a.png")], None)
  /\ Assets.iter_matching_contents Fnmatch.posixpath self [src] = ([], None)
  /\ (forall name, Fnmatch.normcase Fnmatch.posixpath name = name).
Proof.
  intros Hp Hc. unfold Assets.iter_matching_contents. simpl. rewrite Hp, Hc.
  repeat split.
Qed.

Lemma case_folding_follows_os_path_witness :
  Assets.iter_matching_contents Fnmatch.ntpath (find_one "*.PNG" "icons/a.png")
    [["in.bundle"]] = ([(["in.bundle"], "icons/a.png")], None)
  /\ Assets.iter_matching_contents Fnmatch.posixpath (find_one "*.PNG" "icons/a.png")
    [["in.bundle"]] = ([], None).
Proof.
  destruct (case_folding_follows_os_path (find_one "*.PNG" "icons/a.png") ["in.bundle"])
    as [Hnt [Hposix _]]; [reflexivity | reflexivity |].
  split; assumption.
Defined.

(** C6 as stated fails on a [posixpath] host: no setting of the command
    makes [*.PNG] find [icons/a.png] there, so folding cannot be switched
    on by configuration. *)
Lemma no_folding_flag_on_posix :
  ~ exists self : Assets.Find,
      Assets.pattern self = "*.PNG" /\
      In (["in.bundle"], "icons/a.png")
         (fst (Assets.iter_matching_contents Fnmatch.posixpath self [["in.bundle"]])).
Proof.
  intros [self [Hp Hin]].
  rewrite iter_matching_contents_normcase in Hin. simpl fst in Hin.
  apply filter_In in Hin as [_ Hm]. rewrite Hp in Hm. vm_compute in Hm. discriminate.
Qed.

(** ** Completion order *)

Lemma pick_order_perm {A} (sched : list nat) (n : nat) (l : list A) :
  n = length l -> pick_order sched n l ≡ₚ l.
Proof.
  revert sched l. induction n as [|n IH]; intros sched l Hn.
  - destruct l; [reflexivity | discriminate].
  - simpl. set (i := (hd 0%nat sched mod length l)%nat).
    assert (Hi : (i < length l)%nat).
    { subst i. apply Nat.mod_upper_bound. rewrite <- Hn. discriminate. }
    destruct (lookup_lt_is_Some_2 l i Hi) as [x Hx]. rewrite Hx.
    rewrite (delete_Permutation l i x Hx) at 2. constructor.
    apply IH. rewrite length_delete by eauto. lia.
Qed.

(** Every submitted future is completed once. *)
Lemma as_completed_perm {A} (sched : list nat) (futures : list A) :
  as_completed sched futures ≡ₚ futures.
Proof. apply pick_order_perm. reflexivity. Qed.

Lemma as_completed_In {A} (sched : list nat) (futures : list A) (x : A) :
  In x (as_completed sched futures) <-> In x futures.
Proof.
  split; apply Permutation_in; [|symmetry]; apply as_completed_perm.
Qed.

Lemma In_take {A} (x : A) (n : nat) (l : list A) : In x (take n l) -> In x l.
Proof.
  revert n. induction l as [|y l IH]; intros [|n]; simpl; try tauto.
  intros [->|H]; [left; reflexivity | right; eapply IH; exact H].
Qed.

Lemma In_slice_to {A} (x : A) (n : Z) (l : list A) : In x (slice_to l n) -> In x l.
Proof. unfold slice_to. destruct (0 <=? n); apply In_take. Qed.


(** ** Failures while draining the pool *)

Lemma quiet_not_fetch (ev : event) : quiet ev -> is_fetch ev = false.
Proof. destruct ev; simpl; intros H; try contradiction; reflexivity. Qed.

Lemma saves_not_fetch (p : path) (d : bytes) (ev : event) :
  saves p d ev -> is_fetch ev = false.
Proof. intros [H | ->]; [apply quiet_not_fetch; exact H | reflexivity]. Qed.

Lemma filter_fetch_none (P : event -> Prop) (evs : list event) :
  (forall ev, P ev -> is_fetch ev = false) ->
  Forall P evs -> List.filter is_fetch evs = [].
Proof.
  intros HP H. induction H as [|ev evs Hev _ IH]; simpl; [reflexivity|].
  rewrite (HP ev Hev). exact IH.
Qed.

Lemma filter_fetch_all (kind : resource_kind) (names : list string) :
  List.filter is_fetch (map (EvFetch kind) names) = map (EvFetch kind) names.
Proof. induction names as [|n names IH]; simpl; [reflexivity | rewrite IH; reflexivity]. Qed.

Lemma quiet_no_write (evs : list event) (p : path) (d : bytes) :
  Forall quiet evs -> ~ In (EvWrite p d) evs.
Proof.
  intros H Hin. rewrite Forall_forall in H. apply (H _ (proj2 (list_elem_of_In _ _) Hin)).
Qed.

Lemma saves_write (evs : list event) (p q : path) (d d' : bytes) :
  Forall (saves p d) evs -> In (EvWrite q d') evs -> q = p /\ d' = d.
Proof.
  intros H Hin. rewrite Forall_forall in H.
  destruct (H _ (proj2 (list_elem_of_In _ _) Hin)) as [Hq | E]; [contradiction|].
  injection E as -> ->. split; reflexivity.
Qed.

Lemma fetch_no_write (kind : resource_kind) (names : list string) (p : path) (d : bytes) :
  ~ In (EvWrite p d) (map (EvFetch kind) names).
Proof. intros H. apply in_map_iff in H as (n & E & _). discriminate. Qed.

(** The loop stops at the first failed completion: the command ends with
    one exception (that of the failed task, unless saving an earlier
    result failed first), every task still ran its fetch, and only
    results completed before the failure were written. *)
Lemma drain_pool_abort (kind : resource_kind) (fetch : string -> exn + bytes)
  (dest : string -> path) (body : string -> exn + bytes -> M unit) :
  persists_at dest body ->
  forall (pre : list string) (x : string) (post : list string) (e : exn) (w : world),
    (forall n, In n pre -> exists d, fetch n = inr d) ->
    fetch x = inl e ->
    exists r w' evs,
      drain_pool kind fetch body (pre ++ x :: post) w = (inl r, w') /\
      (r = e \/ is_os_error r) /\
      trace w' = trace w ++ evs /\
      List.filter is_fetch evs = map (EvFetch kind) (pre ++ x :: post) /\
      (forall p d, In (EvWrite p d) evs ->
                   exists n, In n pre /\ p = dest n /\ fetch n = inr d).
Proof.
  intros Hbody pre x post e. induction pre as [|n pre IH]; intros w Hpre Hx.
  - simpl app. simpl drain_pool. unfold bind at 1, emit at 1. cbv beta iota. rewrite Hx.
    set (w1 := World (fs w) (trace w ++ [EvFetch kind x])).
    destruct (Hbody x (inl e) w1) as (res & w2 & evs & Hrun & Htr & Hfail & _).
    destruct (Hfail e eq_refl) as [-> Hquiet]. rewrite Hrun.
    exists e, (shutdown kind post w2), (EvFetch kind x :: evs ++ map (EvFetch kind) post).
    split; [reflexivity|]. split; [left; reflexivity|]. split.
    { unfold shutdown. simpl. rewrite Htr. subst w1. simpl.
      rewrite <- !app_assoc. reflexivity. }
    split.
    { simpl. rewrite List.filter_app, filter_fetch_all.
      rewrite (filter_fetch_none quiet evs quiet_not_fetch Hquiet). reflexivity. }
    intros p d [E | Hin]; [discriminate|]. apply in_app_or in Hin as [Hin | Hin].
    + exfalso. exact (quiet_no_write evs p d Hquiet Hin).
    + exfalso. exact (fetch_no_write kind post p d Hin).
  - destruct (Hpre n (or_introl eq_refl)) as [dn Hn].
    simpl app. simpl drain_pool. unfold bind at 1, emit at 1. cbv beta iota. rewrite Hn.
    set (w1 := World (fs w) (trace w ++ [EvFetch kind n])).
    destruct (Hbody n (inr dn) w1) as (res & w2 & evs & Hrun & Htr & _ & Hok).
    destruct (Hok dn eq_refl) as [Hsaves Hos]. rewrite Hrun.
    assert (Hnofetch : List.filter is_fetch evs = []).
    { exact (filter_fetch_none _ evs (saves_not_fetch (dest n) dn) Hsaves). }
    destruct res as [e'|[]].
    + (* saving the result failed *)
      exists e', (shutdown kind (pre ++ x :: post) w2),
        (EvFetch kind n :: evs ++ map (EvFetch kind) (pre ++ x :: post)).
      split; [reflexivity|]. split; [right; apply Hos; reflexivity|]. split.
      { unfold shutdown. simpl. rewrite Htr. subst w1. simpl.
        rewrite <- !app_assoc. reflexivity. }
      split.
      { simpl. rewrite List.filter_app, filter_fetch_all, Hnofetch. reflexivity. }
      intros p d [E | Hin]; [discriminate|]. apply in_app_or in Hin as [Hin | Hin].
      * destruct (saves_write evs _ p _ d Hsaves Hin) as [-> ->].
        exists n. split; [left; reflexivity|]. split; [reflexivity | exact Hn].
      * exfalso. exact (fetch_no_write kind _ p d Hin).
    + destruct (IH w2) as (r & w' & evs' & Hrun' & Hr & Htr' & Hf' & Hw').
      { intros m Hm. apply Hpre. right. exact Hm. }
      { exact Hx. }
      exists r, w', (EvFetch kind n :: evs ++ evs').
      split; [exact Hrun'|]. split; [exact Hr|]. split.
      { rewrite Htr', Htr. subst w1. simpl. rewrite <- !app_assoc. reflexivity. }
      split.
      { simpl. rewrite List.filter_app, Hnofetch, Hf'. reflexivity. }
      intros p d [E | Hin]; [discriminate|]. apply in_app_or in Hin as [Hin | Hin].
      * destruct (saves_write evs _ p _ d Hsaves Hin) as [-> ->].
        exists n. split; [left; reflexivity|]. split; [reflexivity | exact Hn].
      * destruct (Hw' p d Hin) as (m & Hm & Hp & Hd).
        exists m. split; [right; exact Hm|]. split; assumption.
Qed.

Lemma download_body_persists (self : MB.All) :
  persists_at (joinpath (MB.output (MB.All_save self))) (MB._download_body self).
Proof.
  intros name r w. unfold MB._download_body, bind, result.
  destruct r as [e|d].
  - exists (inl e), w, []. split; [reflexivity|]. split; [rewrite app_nil_r; reflexivity|].
    split; [|discriminate]. intros e' [= <-]. split; [reflexivity | constructor].
  - unfold ret.
    destruct (save_effect (MB.All_save self) name d DEBUG w)
      as (res & w' & evs & Hrun & Htr & Hsaves & Hos).
    exists res, w', evs. split; [exact Hrun|]. split; [exact Htr|].
    split; [discriminate|]. intros d' [= <-]. split; assumption.
Qed.

Lemma bundles_body_persists (out_dir : path) :
  persists_at (joinpath out_dir) (Assets.bundles_body out_dir).
Proof.
  intros name r w. unfold Assets.bundles_body, bind, log, emit, result. cbv beta iota.
  set (w1 := World (fs w) (trace w ++ [EvLog INFO (MsgSavingBundle name)])).
  destruct r as [e|d].
  - exists (inl e), w1, [EvLog INFO (MsgSavingBundle name)]. split; [reflexivity|].
    split; [reflexivity|]. split; [|discriminate].
    intros e' [= <-]. split; [reflexivity | repeat constructor].
  - unfold ret.
    destruct (write_bytes_effect (joinpath out_dir name) d w1)
      as [(e & Hrun & He) | (k & _ & _ & _ & Hrun)]; rewrite Hrun.
    + exists (inl e), w1, [EvLog INFO (MsgSavingBundle name)]. split; [reflexivity|].
      split; [reflexivity|]. split; [discriminate|]. intros d' [= <-]. split.
      * constructor; [left; exact I | constructor].
      * intros e' [= <-]. exact He.
    + eexists _, _, [EvLog INFO (MsgSavingBundle name); EvWrite (joinpath out_dir name) d].
      split; [reflexivity|]. split; [subst w1; simpl; rewrite <- app_assoc; reflexivity|].
      split; [discriminate|]. intros d' [= <-]. split.
      * constructor; [left; exact I|]. constructor; [right; reflexivity | constructor].
      * discriminate.
Qed.

(** C8, as the code has it: both download loops stop at the first failed
    completion instead of draining the rest.  When the completion order
    is [pre], then the failed [x], then [post]: the command ends with a
    single exception (that of [x], unless saving one of [pre] failed with
    a filesystem error before), the fetches of all tasks have run, [post]
    included, and the only files written are results of [pre]; nothing is
    aggregated and no result of [post] is persisted. *)
Theorem first_failure_stops_the_loop :
  (forall (self : MB.All) (sched : list nat) (paths : list string) (w : world)
          (pre : list string) (x : string) (post : list string) (e : exn),
      MB.FutureWaiter sched paths = pre ++ x :: post ->
      (forall n, In n pre ->
                 exists d, get_raw_data (MB.client (MB.All_save self)) n = inr d) ->
      get_raw_data (MB.client (MB.All_save self)) x = inl e ->
      exists r w' evs,
        MB._download self sched paths w = (inl r, w') /\
        (r = e \/ is_os_error r) /\
        trace w' = trace w ++ evs /\
        List.filter is_fetch evs = map (EvFetch RawData) (pre ++ x :: post) /\
        (forall p d, In (EvWrite p d) evs ->
           exists n, In n pre /\ p = joinpath (MB.output (MB.All_save self)) n /\
                     get_raw_data (MB.client (MB.All_save self)) n = inr d))
  /\ (forall (self : Assets.Save) (sched : list nat) (w w1 : world) (plan : list string)
          (pre : list string) (x : string) (post : list string) (e : exn),
      FS.mkdir_parents_exist_ok (bundles_dir self) w = (inr tt, w1) ->
      Assets._get_bundle_names self w1 = (inr plan, w1) ->
      as_completed sched plan = pre ++ x :: post ->
      (forall n, In n pre -> exists d, get_asset (Assets.client self) n = inr d) ->
      get_asset (Assets.client self) x = inl e ->
      exists r w' evs,
        Assets.bundles self sched w = (inl r, w') /\
        (r = e \/ is_os_error r) /\
        trace w' = trace w1 ++ EvLog INFO (MsgDownloadingBundles (length plan)) :: evs /\
        List.filter is_fetch evs = map (EvFetch Asset) (pre ++ x :: post) /\
        (forall p d, In (EvWrite p d) evs ->
           exists n, In n pre /\ p = joinpath (bundles_dir self) n /\
                     get_asset (Assets.client self) n = inr d)).
Proof.
  split.
  - intros self sched paths w pre x post e Horder Hpre Hx.
    unfold MB._download. rewrite Horder.
    exact (drain_pool_abort RawData _ _ _ (download_body_persists self)
             pre x post e w Hpre Hx).
  - intros self sched w w1 plan pre x post e Hmk Hplan Horder Hpre Hx.
    unfold Assets.bundles, bind. fold (bundles_dir self). rewrite Hmk, Hplan, Horder.
    unfold log, emit. cbv beta iota.
    set (w2 := World (fs w1) (trace w1 ++ [EvLog INFO (MsgDownloadingBundles (length plan))])).
    destruct (drain_pool_abort Asset _ _ _ (bundles_body_persists (bundles_dir self))
                pre x post e w2 Hpre Hx) as (r & w' & evs & Hrun & Hr & Htr & Hf & Hw).
    exists r, w', evs. split; [exact Hrun|]. split; [exact Hr|]. split; [|split; assumption].
    rewrite Htr. subst w2. simpl. rewrite <- app_assoc. reflexivity.
Qed.

Lemma first_failure_stops_the_loop_witness :
  (exists r w' evs,
      MB._download flaky_all [] ["b"; "a"; "c"] world_empty = (inl r, w') /\
      (r = CollaboratorError "NetworkError" \/ is_os_error r) /\
      trace w' = trace world_empty ++ evs /\
      List.filter is_fetch evs = map (EvFetch RawData) ["b"; "a"; "c"] /\
      (forall p d, In (EvWrite p d) evs ->
         exists n, In n ["b"] /\ p = joinpath ["out"] n /\ fetch_but_a n = inr d))
  /\ (exists r w',
      Assets.bundles flaky_save [1%nat] world_empty = (inl r, w') /\
      (r = CollaboratorError "NetworkError" \/ is_os_error r)).
Proof.
  destruct first_failure_stops_the_loop as [Hraw Hbundles].
  split.
  - apply (Hraw flaky_all [] ["b"; "a"; "c"] world_empty ["b"] "a" ["c"]).
    + reflexivity.
    + intros n [<- | []]. eexists. reflexivity.
    + reflexivity.
  - destruct (Hbundles flaky_save [1%nat] world_empty
                (snd (FS.mkdir_parents_exist_ok (bundles_dir flaky_save) world_empty))
                ["a"; "b"] ["b"] "a" [] (CollaboratorError "NetworkError"))
      as (r & w' & evs & Hrun & Hr & _).
    + vm_compute. reflexivity.
    + vm_compute. reflexivity.
    + reflexivity.
    + intros n [<- | []]. eexists. reflexivity.
    + reflexivity.
    + exists r, w'. split; assumption.
Defined.

(** C8 as stated fails: with bundles a and b completing in that order and
    the fetch of a failing, [bundles] ends with the exception of a; the
    task of b ran and got its bytes, yet nothing is written for b.  The
    raw-data loop behaves the same. *)
Lemma sibling_result_is_dropped :
  fst (Assets.bundles flaky_save [] world_empty) = inl (CollaboratorError "NetworkError")
  /\ In (EvFetch Asset "b") (trace (snd (Assets.bundles flaky_save [] world_empty)))
  /\ get_asset flaky_client "b" = inr [Byte.x2a]
  /\ fs (snd (Assets.bundles flaky_save [] world_empty)) !! ["out"; "bundles"; "b"] = None
  /\ fst (MB._download flaky_all [] ["a"; "b"] world_empty) =
       inl (CollaboratorError "NetworkError")
  /\ In (EvFetch RawData "b") (trace (snd (MB._download flaky_all [] ["a"; "b"] world_empty)))
  /\ fs (snd (MB._download flaky_all [] ["a"; "b"] world_empty)) !! ["out"; "b"] = None.
Proof.
  repeat split; try (vm_compute; reflexivity); vm_compute; tauto.
Qed.

(** ** What the filesystem calls keep *)

Lemma os_mkdir_keeps (p : path) (w w' : world) (r : exn + unit) :
  FS.os_mkdir p w = (r, w') ->
  forall (q : path) n, FS.node_at (fs w) q = Some n -> FS.node_at (fs w') q = Some n.
Proof.
  destruct (os_mkdir_cases p w) as [(e & Hrun & _) | (k & _ & Hk & _ & Hrun)]; rewrite Hrun;
    intros [= <- <-] q n Hq; [exact Hq|].
  simpl. apply node_at_insert_keeps; assumption.
Qed.

Lemma handler_keeps (p : path) (e : exn) (w w' : world) (r : exn + unit) :
  FS.exist_ok_handler p e w = (r, w') -> w' = w.
Proof.
  unfold FS.exist_ok_handler. destruct (FS.is_dir_in (fs w) p); intros [= _ <-]; reflexivity.
Qed.

Lemma mkdir_exist_ok_keeps (p : path) (w w' : world) (r : exn + unit) :
  FS.mkdir_exist_ok p w = (r, w') ->
  forall (q : path) n, FS.node_at (fs w) q = Some n -> FS.node_at (fs w') q = Some n.
Proof.
  unfold FS.mkdir_exist_ok.
  destruct (FS.os_mkdir p w) as [[e|[]] w1] eqn:Hos; intros Hrun q n Hq.
  - apply handler_keeps in Hrun as ->. eapply os_mkdir_keeps; eassumption.
  - injection Hrun as <- <-. eapply os_mkdir_keeps; eassumption.
Qed.

(** Creating directories never removes or replaces what is there. *)
Lemma mkdir_parents_rev_keeps (rp : list string) :
  forall (w w' : world) (r : exn + unit),
    FS.mkdir_parents_rev rp w = (r, w') ->
    forall (q : path) n, FS.node_at (fs w) q = Some n -> FS.node_at (fs w') q = Some n.
Proof.
  induction rp as [|x rp IH]; intros w w' r; rewrite mkdir_parents_rev_unfold.
  - destruct (FS.os_mkdir (rev []) w) as [[e|[]] w1] eqn:Hos; intros Hrun q n Hq;
      pose proof (os_mkdir_keeps _ _ _ _ Hos q n Hq) as Hq1.
    + destruct e; try (apply handler_keeps in Hrun as ->; exact Hq1).
      injection Hrun as <- <-. exact Hq1.
    + injection Hrun as <- <-. exact Hq1.
  - destruct (FS.os_mkdir (rev (x :: rp)) w) as [[e|[]] w1] eqn:Hos; intros Hrun q n Hq;
      pose proof (os_mkdir_keeps _ _ _ _ Hos q n Hq) as Hq1.
    + destruct e; try (apply handler_keeps in Hrun as ->; exact Hq1).
      destruct (is_anchor (rev (x :: rp))); [injection Hrun as <- <-; exact Hq1|].
      unfold bind in Hrun.
      destruct (FS.mkdir_parents_rev rp w1) as [[e1|[]] w2] eqn:Hrec.
      * injection Hrun as <- <-. eapply IH; eassumption.
      * eapply mkdir_exist_ok_keeps; [exact Hrun|]. eapply IH; eassumption.
    + injection Hrun as <- <-. exact Hq1.
Qed.

Lemma keeps_files_of_nodes (w w' : world) :
  (forall (q : path) n, FS.node_at (fs w) q = Some n -> FS.node_at (fs w') q = Some n) ->
  forall q, FS.is_file_in (fs w) q = true -> FS.is_file_in (fs w') q = true.
Proof.
  intros H q. unfold FS.is_file_in.
  destruct (FS.node_at (fs w) q) as [[d|]|] eqn:E; try discriminate.
  rewrite (H q _ E). reflexivity.
Qed.

(** Writing a file leaves a regular file, and keeps the others. *)
Lemma write_bytes_files (p : path) (d : bytes) (w w' : world) (r : exn + unit) :
  FS.write_bytes p d w = (r, w') ->
  (forall q, FS.is_file_in (fs w) q = true -> FS.is_file_in (fs w') q = true) /\
  (r = inr tt -> FS.is_file_in (fs w') p = true /\
                 trace w' = trace w ++ [EvWrite p d]).
Proof.
  destruct (write_bytes_effect p d w) as [(e & Hrun & _) | (k & Hk & Hnd & _ & Hrun)];
    rewrite Hrun; intros [= <- <-]; (split; [|try discriminate]).
  - auto.
  - intros q Hq. simpl. apply is_file_in_insert_file; assumption.
  - intros _. simpl. split; [|reflexivity]. unfold FS.is_file_in.
    rewrite (node_at_insert_here _ p k (File d) Hk Hnd). reflexivity.
Qed.

Lemma bundles_body_stores (out_dir : path) :
  writes_once (joinpath out_dir) (Assets.bundles_body out_dir) /\
  stores (joinpath out_dir) (Assets.bundles_body out_dir).
Proof.
  assert (H : forall name r w res w',
             Assets.bundles_body out_dir name r w = (res, w') ->
             (forall q, FS.is_file_in (fs w) q = true -> FS.is_file_in (fs w') q = true) /\
             (res = inr tt ->
              FS.is_file_in (fs w') (joinpath out_dir name) = true /\
              exists d, r = inr d /\
                trace w' = trace w ++ [EvLog INFO (MsgSavingBundle name)] ++
                           [EvWrite (joinpath out_dir name) d])).
  { intros name r w res w'. unfold Assets.bundles_body, bind, log, emit, result.
    cbv beta iota. destruct r as [e|d].
    - intros [= <- <-]. split; [auto | discriminate].
    - unfold ret. intros Hrun.
      destruct (write_bytes_files _ _ _ _ _ Hrun) as [Hkeep Hok].
      split; [exact Hkeep|]. intros ->. destruct (Hok eq_refl) as [Hfile Htr].
      split; [exact Hfile|]. exists d. split; [reflexivity|].
      rewrite Htr. simpl. rewrite <- app_assoc. reflexivity. }
  split.
  - intros name r w w' Hrun. destruct (H _ _ _ _ _ Hrun) as [_ Hok].
    destruct (Hok eq_refl) as [_ (d & -> & Htr)].
    exists d, [EvLog INFO (MsgSavingBundle name)]. split; [reflexivity|].
    split; [exact Htr | repeat constructor].
  - split.
    + intros name r w res w' q Hrun. exact (proj1 (H _ _ _ _ _ Hrun) q).
    + intros name r w w' Hrun. exact (proj1 (proj2 (H _ _ _ _ _ Hrun) eq_refl)).
Qed.

Lemma download_body_stores (self : MB.All) :
  writes_once (joinpath (MB.output (MB.All_save self))) (MB._download_body self) /\
  stores (joinpath (MB.output (MB.All_save self))) (MB._download_body self).
Proof.
  set (dest := joinpath (MB.output (MB.All_save self))).
  assert (H : forall name r w res w',
             MB._download_body self name r w = (res, w') ->
             (forall q, FS.is_file_in (fs w) q = true -> FS.is_file_in (fs w') q = true) /\
             (res = inr tt ->
              FS.is_file_in (fs w') (dest name) = true /\
              exists d mk, r = inr d /\ Forall quiet mk /\
                trace w' = trace w ++ mk ++ [EvWrite (dest name) d])).
  { intros name r w res w'. unfold MB._download_body, bind, result.
    destruct r as [e|d]; [intros [= <- <-]; split; [auto | discriminate]|].
    unfold ret, MB._save, bind, FS.mkdir_parents_exist_ok. fold (dest name).
    destruct (mkdir_parents_rev_effect (rev (parent (dest name))) w)
      as (r1 & w1 & evs1 & Hrun1 & Htr1 & Hq1 & _).
    rewrite Hrun1.
    pose proof (keeps_files_of_nodes _ _ (mkdir_parents_rev_keeps _ _ _ _ Hrun1)) as Hkeep1.
    destruct r1 as [e1|[]]; [intros [= <- <-]; split; [exact Hkeep1 | discriminate]|].
    unfold log, emit. cbv beta iota. intros Hrun.
    destruct (write_bytes_files _ _ _ _ _ Hrun) as [Hkeep Hok]. simpl in Hkeep.
    split; [intros q Hq; apply Hkeep, Hkeep1, Hq|].
    intros ->. destruct (Hok eq_refl) as [Hfile Htr]. split; [exact Hfile|].
    exists d, (evs1 ++ [EvLog DEBUG (MsgSaving (dest name))]).
    split; [reflexivity|]. split.
    - apply Forall_app. split; [exact Hq1 | repeat constructor].
    - rewrite Htr. simpl. rewrite Htr1, <- !app_assoc. reflexivity. }
  split.
  - intros name r w w' Hrun. destruct (H _ _ _ _ _ Hrun) as [_ Hok].
    destruct (Hok eq_refl) as [_ (d & mk & -> & Hq & Htr)].
    exists d, mk. split; [reflexivity|]. split; [exact Htr | exact Hq].
  - split.
    + intros name r w res w' q Hrun. exact (proj1 (H _ _ _ _ _ Hrun) q).
    + intros name r w w' Hrun. exact (proj1 (proj2 (H _ _ _ _ _ Hrun) eq_refl)).
Qed.

Lemma filter_write_quiet (evs : list event) : Forall quiet evs -> List.filter is_write evs = [].
Proof.
  intros H. induction H as [|ev evs Hev _ IH]; simpl; [reflexivity|].
  destruct ev; simpl in *; try contradiction; exact IH.
Qed.

(** A loop that returns normally has had every fetch succeed, has
    written every result once, in completion order, and leaves a regular
    file at every destination. *)
Lemma drain_pool_complete (kind : resource_kind) (fetch : string -> exn + bytes)
  (dest : string -> path) (body : string -> exn + bytes -> M unit) :
  writes_once dest body -> stores dest body ->
  forall (done : list string) (w w' : world),
    drain_pool kind fetch body done w = (inr tt, w') ->
    (forall n, In n done -> exists d, fetch n = inr d) /\
    (exists evs, trace w' = trace w ++ evs /\
                 List.filter is_write evs = writes_of fetch dest done) /\
    (forall q, FS.is_file_in (fs w) q = true -> FS.is_file_in (fs w') q = true) /\
    (forall n, In n done -> FS.is_file_in (fs w') (dest n) = true).
Proof.
  intros Honce [Hkeep Hfile] done. induction done as [|n done IH]; intros w w'.
  - intros [= <-]. split; [intros n []|]. split; [exists []; rewrite app_nil_r; auto|].
    split; [auto | intros n []].
  - simpl drain_pool. unfold bind at 1, emit at 1. cbv beta iota.
    set (w1 := World (fs w) (trace w ++ [EvFetch kind n])).
    destruct (body n (fetch n) w1) as [[e|[]] w2] eqn:Hbody; [discriminate|].
    intros Hrest.
    destruct (Honce _ _ _ _ Hbody) as (d & mk & Hd & Htr & Hq).
    destruct (IH _ _ Hrest) as (Hall & (evs & Htr' & Hw) & Hkeep' & Hfiles).
    split; [intros m [<- | Hm]; [eauto | apply Hall; exact Hm]|].
    split.
    { exists (EvFetch kind n :: mk ++ EvWrite (dest n) d :: evs). split.
      - rewrite Htr', Htr. subst w1. simpl. rewrite <- !app_assoc. reflexivity.
      - unfold writes_of. simpl flat_map. rewrite Hd. simpl.
        rewrite List.filter_app, (filter_write_quiet mk Hq). simpl. rewrite Hw.
        reflexivity. }
    split.
    { intros q Hq0. apply Hkeep'. eapply Hkeep; [exact Hbody|]. exact Hq0. }
    intros m [<- | Hm]; [|apply Hfiles; exact Hm].
    apply Hkeep'. eapply Hfile. exact Hbody.
Qed.

(** ** Where downloads are written *)















(** ** Extraction *)

Lemma run_all_ran (task : path -> M unit) (src_paths : list path) (w : world) :
  exists outcomes w',
    Assets.run_all task src_paths w = (inr outcomes, w') /\
    map fst outcomes = src_paths /\
    tasks_ran task w outcomes w'.
Proof.
  revert w. induction src_paths as [|src_path rest IH]; intros w.
  - exists [], w. repeat split.
  - simpl. unfold bind, Assets.run_task, ret.
    destruct (task src_path w) as [r w1] eqn:Htask.
    destruct (IH w1) as (outcomes & w' & Hrun & Hsrc & Hran). rewrite Hrun.
    exists ((src_path, r) :: outcomes), w'. split; [reflexivity|]. split.
    + simpl. rewrite Hsrc. reflexivity.
    + simpl. exists w1. split; [exact Htask | exact Hran].
Qed.

Lemma iter_src_paths_pure (self : Assets.BundleCommand) (w : world) :
  exists src_paths, Assets.iter_src_paths self w = (inr src_paths, w).
Proof.
  unfold Assets.iter_src_paths, bind, FS.reads, ret.
  destruct (FS.is_file_in (fs w) (Assets.input self)); eexists; reflexivity.
Qed.

(** C5, as the code has it: [Extract.main] returns after every submitted
    task has run, each source once, a failed task being followed by the
    remaining ones like a successful one; it then returns normally,
    whatever the outcomes, which stay in the futures that it drops: it
    reports no failure.  With three sources of which the second fails to
    parse, the first and the third are extracted and the command returns
    normally. *)
Theorem extract_runs_every_task (self : Assets.Extract) (sched : list nat) (w : world) :
  (exists src_paths outcomes w',
      Assets.iter_src_paths (Assets.Extract_base self) w = (inr src_paths, w) /\
      Assets.wait self sched src_paths w = (inr outcomes, w') /\
      map fst outcomes ≡ₚ src_paths /\
      tasks_ran (Assets.extract_bundle self (Assets.Extract_output self)) w outcomes w' /\
      Assets.Extract_main self sched w = (inr tt, w'))
  /\ (exists w',
      Assets.wait (extract_cmd false) [] [s1; s2; s3] world_in =
        (inr [(s1, inr tt); (s2, inl (CollaboratorError "ParseError")); (s3, inr tt)], w') /\
      Assets.Extract_main (extract_cmd false) [] world_in = (inr tt, w') /\
      fs w' !! ["out"; "s1"] = Some (File [Byte.x2a]) /\
      fs w' !! ["out"; "s3"] = Some (File [Byte.x2a]) /\
      trace w' = [EvWrite ["out"; "s1"] [Byte.x2a]; EvWrite ["out"; "s3"] [Byte.x2a]]).
Proof.
  split.
  - destruct (iter_src_paths_pure (Assets.Extract_base self) w) as [src_paths Hsrc].
    destruct (run_all_ran (Assets.extract_bundle self (Assets.Extract_output self))
                (as_completed sched src_paths) w) as (outcomes & w' & Hrun & Hfst & Hran).
    exists src_paths, outcomes, w'.
    split; [exact Hsrc|]. split; [exact Hrun|].
    split; [rewrite Hfst; apply as_completed_perm|]. split; [exact Hran|].
    unfold Assets.Extract_main, bind. rewrite Hsrc. unfold Assets.wait in Hrun.
    unfold Assets.wait. rewrite Hrun. reflexivity.
  - eexists. split; [vm_compute; reflexivity|].
    repeat split; vm_compute; reflexivity.
Qed.

(** C5 as stated fails: nothing that [Extract.main] returns or leaves
    behind tells the run in which the second source failed to parse from
    the run in which it parsed (and held nothing), so no failure naming
    the second source is reported. *)
Lemma extract_failure_is_not_reported :
  ~ exists report : (exn + unit) * world -> list path,
      report (Assets.Extract_main (extract_cmd false) [] world_in) = [s2] /\
      report (Assets.Extract_main (extract_cmd true) [] world_in) = [].
Proof.
  intros (report & Hfail & Hok).
  assert (E : Assets.Extract_main (extract_cmd false) [] world_in =
              Assets.Extract_main (extract_cmd true) [] world_in)
    by (vm_compute; reflexivity).
  rewrite E in Hfail. rewrite Hfail in Hok. discriminate.
Qed.

(** * Further properties *)

(** ** The shape of the plans *)

Lemma list_filter_sublist {A} (p : A -> bool) (l : list A) :
  List.filter p l `sublist_of` l.
Proof.
  induction l as [|x l IH]; simpl; [constructor|].
  destruct (p x); [apply sublist_skip | apply sublist_cons]; exact IH.
Qed.

Lemma slice_to_sublist {A} (l : list A) (n : Z) : slice_to l n `sublist_of` l.
Proof. unfold slice_to. destruct (0 <=? n); apply sublist_take. Qed.

Lemma fnmatch_filter_sublist os (names : list string) (pat : string) :
  Fnmatch.filter os names pat `sublist_of` names.
Proof. destruct os; apply list_filter_sublist. Qed.

Lemma raw_candidates_sublist os (self : MB.All) :
  raw_candidates os self `sublist_of` map MB.FilePath (MB.raw_data_info (MB.All_save self)).
Proof.
  unfold raw_candidates. destruct (truthy_str (MB.pattern self)); [|reflexivity].
  apply fnmatch_filter_sublist.
Qed.

(** The raw-data plan, whatever the options: planning changes nothing,
    and the plan is the [FilePath] column of the manifest with entries
    left out, never reordered, never deduplicated or invented; with a
    limit (at least 1, as the parser ensures) it has at most that many
    entries. *)
Theorem raw_plan_is_sublist_of_manifest os (self : MB.All) (w : world) :
  exists plan,
    MB._get_paths os self w = (inr plan, w) /\
    plan `sublist_of` map MB.FilePath (MB.raw_data_info (MB.All_save self)) /\
    (forall n, MB.parsed self -> MB.limit self = Some n -> (Z.of_nat (length plan) <= n)).
Proof.
  assert (Hlen : forall (l : list string) n,
             MB.parsed self -> MB.limit self = Some n ->
             Z.of_nat (length (if truthy_int (MB.limit self)
                               then slice_to l (default 0 (MB.limit self)) else l)) <= n).
  { intros l n [_ Hp] Hl. rewrite Hl in *. rewrite truthy_int_pos by exact Hp. simpl.
    rewrite slice_to_nonneg by lia. rewrite length_take. lia. }
  destruct (MB.force (MB.All_save self)) eqn:Hf.
  - eexists. split; [apply get_paths_forced; exact Hf|]. split; [|apply Hlen].
    destruct (truthy_int (MB.limit self)); [etransitivity; [apply slice_to_sublist|]|];
      apply raw_candidates_sublist.
  - eexists. split; [apply get_paths_unforced; exact Hf|]. split; [|apply Hlen].
    cbv zeta.
    destruct (truthy_int (MB.limit self)); [etransitivity; [apply slice_to_sublist|]|];
      (etransitivity; [apply list_filter_sublist | apply raw_candidates_sublist]).
Qed.

Lemma sublist_In {A} (l1 l2 : list A) (x : A) : l1 `sublist_of` l2 -> In x l1 -> In x l2.
Proof.
  intros Hs Hin. apply list_elem_of_In. eapply elem_of_sublist; [|exact Hs].
  apply list_elem_of_In. exact Hin.
Qed.

Lemma In_kept {A} (p : A -> bool) (l : list A) (lim : option Z) (x : A) :
  In x (let kept := List.filter p l in
        if truthy_int lim then slice_to kept (default 0 lim) else kept) ->
  In x l /\ p x = true.
Proof.
  cbv zeta. intros H. apply filter_In.
  destruct (truthy_int lim); [apply In_slice_to in H|]; exact H.
Qed.

(** Skip-existing: without [--force], no planned raw-data file is there
    when the plan is made, whatever the pattern and the limit. *)
Theorem raw_plan_skips_existing os (self : MB.All) (w : world) (plan : list string) :
  MB.force (MB.All_save self) = false ->
  MB._get_paths os self w = (inr plan, w) ->
  forall id, In id plan -> have_raw self w id = false.
Proof.
  intros Hf Hplan id Hin. rewrite (get_paths_unforced os self w Hf) in Hplan.
  injection Hplan as <-. apply In_kept in Hin as [_ Hin].
  apply negb_true_iff. exact Hin.
Qed.

Lemma raw_plan_skips_existing_witness :
  have_raw (all_abcd false (Some 2)) world_a "b" = false.
Proof.
  apply (raw_plan_skips_existing Fnmatch.posixpath (all_abcd false (Some 2)) world_a
           ["b"; "c"]).
  - reflexivity.
  - rewrite get_paths_unforced by reflexivity. vm_compute. reflexivity.
  - left. reflexivity.
Defined.

(** With a non-empty pattern every planned raw-data file matches it, the
    pattern and the file name both going through [normcase] of the host;
    this holds with and without [--force]. *)
Theorem raw_plan_matches_pattern os (self : MB.All) (w : world)
  (pat : string) (plan : list string) :
  MB.pattern self = Some pat -> pat <> "" ->
  MB._get_paths os self w = (inr plan, w) ->
  forall id, In id plan ->
    Fnmatch._compile_pattern (Fnmatch.normcase os pat) (Fnmatch.normcase os id) = true.
Proof.
  intros Hpat Hne Hplan id Hin.
  assert (Hcand : In id (raw_candidates os self)).
  { destruct (MB.force (MB.All_save self)) eqn:Hf.
    - rewrite (get_paths_forced os self w Hf) in Hplan. injection Hplan as <-.
      destruct (truthy_int (MB.limit self)); [apply In_slice_to in Hin|]; exact Hin.
    - rewrite (get_paths_unforced os self w Hf) in Hplan. injection Hplan as <-.
      apply In_kept in Hin. tauto. }
  unfold raw_candidates in Hcand. rewrite Hpat in Hcand.
  assert (Ht : truthy_str (Some pat) = true) by (destruct pat; [congruence | reflexivity]).
  rewrite Ht in Hcand. simpl in Hcand.
  destruct os; apply filter_In in Hcand; tauto.
Qed.

Lemma raw_plan_is_sublist_of_manifest_witness :
  exists plan,
    MB._get_paths Fnmatch.posixpath (all_abcd false (Some 2)) world_a = (inr plan, world_a) /\
    Z.of_nat (length plan) <= 2.
Proof.
  destruct (raw_plan_is_sublist_of_manifest Fnmatch.posixpath (all_abcd false (Some 2)) world_a)
    as (plan & Hplan & _ & Hlen).
  exists plan. split; [exact Hplan|]. apply Hlen; [split; simpl; lia | reflexivity].
Defined.

Lemma raw_plan_matches_pattern_witness :
  Fnmatch._compile_pattern (Fnmatch.normcase Fnmatch.ntpath "[B-D]")
    (Fnmatch.normcase Fnmatch.ntpath "c") = true.
Proof.
  apply (raw_plan_matches_pattern Fnmatch.ntpath (pattern_abcd true "[B-D]") world_a
           "[B-D]" ["b"; "c"; "d"]).
  - reflexivity.
  - discriminate.
  - rewrite get_paths_forced by reflexivity. vm_compute. reflexivity.
  - right. left. reflexivity.
Defined.

(** The bundle plan, whatever the options: planning changes nothing, and
    the plan is the catalog's bundle names with entries left out, in the
    catalog's order.  Without [--force], once the bundles directory
    exists, no planned bundle is there yet, and a limit of at least 1
    bounds the length of the plan. *)
Theorem bundle_plan_is_sublist_of_catalog (self : Assets.Save) (w : world) :
  exists plan,
    Assets._get_bundle_names self w = (inr plan, w) /\
    plan `sublist_of` bundle_names (Assets.client self) /\
    (Assets.force self = false ->
     FS.exists_in (fs w) (bundles_dir self) = true ->
     (forall id, In id plan -> have_bundle self w id = false) /\
     (forall n, Assets.limit self = Some n -> 1 <= n -> Z.of_nat (length plan) <= n)).
Proof.
  destruct (Assets.force self) eqn:Hf.
  - eexists. split; [apply get_bundle_names_forced; exact Hf|].
    split; [reflexivity | discriminate].
  - destruct (FS.exists_in (fs w) (bundles_dir self)) eqn:Hd.
    + eexists. split; [apply get_bundle_names_unforced; assumption|]. cbv zeta. split.
      * destruct (truthy_int (Assets.limit self));
          [etransitivity; [apply slice_to_sublist|]|]; apply list_filter_sublist.
      * intros _ _. split.
        -- intros id Hin. apply In_kept in Hin as [_ Hin]. apply negb_true_iff. exact Hin.
        -- intros n Hl Hn. rewrite Hl. rewrite truthy_int_pos by exact Hn. simpl.
           rewrite slice_to_nonneg by lia. rewrite length_take. lia.
    + exists (bundle_names (Assets.client self)). split; [|split; [reflexivity|discriminate]].
      unfold Assets._get_bundle_names, bind, FS.exists_, FS.reads, ret.
      rewrite Hf. fold (bundles_dir self). simpl. rewrite Hd. reflexivity.
Qed.

Lemma bundle_plan_is_sublist_of_catalog_witness :
  exists plan,
    Assets._get_bundle_names (save_abcd false (Some 2)) world_a = (inr plan, world_a) /\
    have_bundle (save_abcd false (Some 2)) world_a "b" = false /\
    Z.of_nat (length plan) <= 2.
Proof.
  destruct (bundle_plan_is_sublist_of_catalog (save_abcd false (Some 2)) world_a)
    as (plan & Hplan & _ & Hrest).
  destruct Hrest as [Hskip Hlen]; [reflexivity | vm_compute; reflexivity |].
  exists plan. split; [exact Hplan|]. split.
  - apply Hskip. rewrite get_bundle_names_unforced in Hplan by (vm_compute; reflexivity).
    injection Hplan as <-. vm_compute. tauto.
  - apply (Hlen 2); [reflexivity | lia].
Defined.

(** ** Saving, and planning again *)

Lemma save_success_file (self : MB.Save) (name : string) (data : bytes) (lvl : Z)
  (w w' : world) :
  MB._save self name data lvl w = (inr tt, w') ->
  FS.node_at (fs w') (joinpath (MB.output self) name) = Some (File data).
Proof.
  intros Hrun.
  destruct (save_lands self name data lvl w) as (r & w0 & evs & Hrun' & _ & _ & _ & Hok).
  rewrite Hrun in Hrun'. injection Hrun' as <- <-. apply (Hok eq_refl).
Qed.

(** Resuming: once [_save] has stored a raw-data file, a later plan
    without [--force] never contains it again, whatever the pattern and
    the limit. *)
Theorem saved_file_is_not_planned_again os (self : MB.All) (id : string)
  (data : bytes) (lvl : Z) (w w' : world) (plan : list string) :
  MB.force (MB.All_save self) = false ->
  MB._save (MB.All_save self) id data lvl w = (inr tt, w') ->
  MB._get_paths os self w' = (inr plan, w') ->
  ~ In id plan.
Proof.
  intros Hf Hsave Hplan Hin.
  rewrite (get_paths_unforced os self w' Hf) in Hplan. injection Hplan as <-.
  apply In_kept in Hin as [_ Hin]. apply negb_true_iff in Hin.
  unfold have_raw, FS.exists_in in Hin.
  rewrite (save_success_file _ _ _ _ _ _ Hsave) in Hin.
  apply bool_decide_eq_false in Hin. apply Hin. eauto.
Qed.

Lemma saved_file_is_not_planned_again_witness :
  ~ In "b" ["c"; "d"].
Proof.
  apply (saved_file_is_not_planned_again Fnmatch.posixpath (all_abcd false None) "b" []
           DEBUG world_a (snd (MB._save save_out "b" [] DEBUG world_a))).
  - reflexivity.
  - vm_compute. reflexivity.
  - rewrite get_paths_unforced by reflexivity. vm_compute. reflexivity.
Defined.

(** ** Running the raw-data command *)

Lemma list_filter_none {A} (p : A -> bool) (l : list A) :
  (forall x, In x l -> p x = false) -> List.filter p l = [].
Proof.
  induction l as [|x l IH]; intros H; simpl; [reflexivity|].
  rewrite (H x) by (left; reflexivity). apply IH. intros y Hy. apply H. right. exact Hy.
Qed.

Lemma slice_to_nil {A} (n : Z) : slice_to (@nil A) n = [].
Proof. unfold slice_to. destruct (0 <=? n); apply take_nil. Qed.

(** Nothing to do: without [--force], when every file of the manifest is
    already there, [All.main] logs that all files have been downloaded
    and does nothing else, with or without [dry_run], whatever the
    pattern and the limit. *)
Theorem all_main_nothing_to_do os (self : MB.All) (sched : list nat) (w : world) :
  MB.force (MB.All_save self) = false ->
  (forall row, In row (MB.raw_data_info (MB.All_save self)) ->
               have_raw self w (MB.FilePath row) = true) ->
  MB.All_main os self sched w =
    (inr tt, World (fs w) (trace w ++ [EvLog INFO MsgAllDownloaded])).
Proof.
  intros Hf Hall. unfold MB.All_main, bind.
  rewrite (get_paths_unforced os self w Hf). cbv zeta.
  rewrite list_filter_none.
  - destruct (truthy_int (MB.limit self)); rewrite ?slice_to_nil; reflexivity.
  - intros id Hin. apply (sublist_In _ _ _ (raw_candidates_sublist os self)) in Hin.
    apply in_map_iff in Hin as (row & <- & Hrow). rewrite (Hall row Hrow). reflexivity.
Qed.

Lemma all_main_nothing_to_do_witness :
  MB.All_main Fnmatch.posixpath dry_abcd [] world_all =
    (inr tt, World (fs world_all) [EvLog INFO MsgAllDownloaded]).
Proof.
  apply (all_main_nothing_to_do Fnmatch.posixpath dry_abcd [] world_all).
  - reflexivity.
  - intros row Hin. simpl in Hin.
    destruct Hin as [<- | [<- | [<- | [<- | []]]]]; vm_compute; reflexivity.
Defined.

Lemma ltb_asym (a b : string) : String.ltb a b = true -> String.ltb b a = false.
Proof.
  unfold String.ltb. rewrite (String.compare_antisym b a).
  destruct (String.compare a b); simpl; congruence.
Qed.

Lemma insert_sorted_perm (x : string) (l : list string) : insert_sorted x l ≡ₚ x :: l.
Proof.
  induction l as [|y l IH]; simpl; [reflexivity|].
  destruct (String.ltb x y); [reflexivity|].
  rewrite IH. apply perm_swap.
Qed.

Lemma sorted_perm (l : list string) : sorted l ≡ₚ l.
Proof.
  unfold sorted. rewrite <- (rev_involutive l) at 2.
  induction (rev l) as [|x r IH]; simpl; [reflexivity|].
  rewrite insert_sorted_perm, IH. rewrite Permutation_cons_append. reflexivity.
Qed.

Lemma insert_sorted_Sorted (x : string) (l : list string) :
  Sorted str_le l -> Sorted str_le (insert_sorted x l).
Proof.
  induction l as [|y l IH]; intros Hs; simpl.
  - repeat constructor.
  - destruct (String.ltb x y) eqn:Hxy.
    + constructor; [exact Hs|]. constructor. apply ltb_asym. exact Hxy.
    + inversion Hs as [|? ? Hl Hhd]; subst. constructor; [apply IH; exact Hl|].
      destruct l as [|z l]; simpl.
      * constructor. exact Hxy.
      * destruct (String.ltb x z); constructor; [exact Hxy|].
        inversion Hhd; subst. assumption.
Qed.

Lemma sorted_Sorted (l : list string) : Sorted str_le (sorted l).
Proof.
  unfold sorted. induction (rev l) as [|x r IH]; simpl; [constructor|].
  apply insert_sorted_Sorted. exact IH.
Qed.

(** The listing of a dry run: [All.main] prints one line per planned
    file, every planned file once (duplicates as often as planned), in
    ascending order of the names by code points, whatever the order of
    the manifest. *)
Theorem dry_run_lists_plan_sorted os (self : MB.All) (sched : list nat) (w : world)
  (paths : list string) :
  MB.dry_run self = true ->
  MB._get_paths os self w = (inr paths, w) ->
  paths <> [] ->
  exists listed,
    filter_prints (trace (snd (MB.All_main os self sched w))) =
      filter_prints (trace w) ++ map (fun path => " - " +:+ path) listed /\
    listed ≡ₚ paths /\
    Sorted str_le listed.
Proof.
  intros Hdry Hp Hne. exists (sorted paths).
  split; [|split; [apply sorted_perm | apply sorted_Sorted]].
  unfold MB.All_main, bind. rewrite Hp.
  destruct paths as [|p paths]; [congruence|].
  rewrite Hdry. unfold log, emit. cbv beta iota. simpl fst. simpl snd.
  rewrite for_each_print. simpl snd. simpl trace.
  unfold filter_prints. rewrite !flat_map_app. simpl. rewrite !app_nil_r. f_equal.
  induction (sorted (p :: paths)) as [|x l IH]; simpl; [reflexivity | rewrite IH; reflexivity].
Qed.

Lemma dry_run_lists_plan_sorted_witness :
  exists listed,
    filter_prints (trace (snd (MB.All_main Fnmatch.posixpath (pattern_abcd true "*") []
                                 world_empty))) =
      map (fun path => " - " +:+ path) listed /\
    listed ≡ₚ abcd /\ Sorted str_le listed.
Proof.
  apply (dry_run_lists_plan_sorted Fnmatch.posixpath (pattern_abcd true "*") [] world_empty abcd).
  - reflexivity.
  - rewrite get_paths_forced by reflexivity. vm_compute. reflexivity.
  - discriminate.
Defined.

(** ** The single-file download, to its end *)

Lemma file_main_gate_open (self : MB.File) (w : world) :
  MB.force (MB.File_save self) = true \/ FS.exists_in (fs w) (file_dest self) = false ->
  MB.skip_validation self = true \/
    (exists row, In row (MB.raw_data_info (MB.File_save self)) /\
                 MB.FilePath row = MB.name self) ->
  MB.File_main self w =
    (data <- call_fetch RawData (get_raw_data (MB.client (MB.File_save self))) (MB.name self) ;;
     MB._save (MB.File_save self) (MB.name self) data INFO) w.
Proof.
  intros Hgate Hvalid.
  assert (Hcheck : negb (MB.skip_validation self) &&
                   negb (existsb (fun row => String.eqb (MB.FilePath row) (MB.name self))
                           (MB.raw_data_info (MB.File_save self))) = false).
  { destruct Hvalid as [-> | (row & Hin & Hrow)]; [reflexivity|].
    apply andb_false_iff. right. apply negb_false_iff. apply existsb_exists.
    exists row. split; [exact Hin|]. apply String.eqb_eq. exact Hrow. }
  unfold MB.File_main, FS.exists_, FS.reads, file_dest in *. unfold bind at 1.
  destruct Hgate as [Hf | He].
  - rewrite Hf. simpl. rewrite Hcheck. reflexivity.
  - destruct (MB.force (MB.File_save self)); simpl; rewrite ?He, Hcheck; reflexivity.
Qed.



(** A failed fetch in the single-file download: the exception of the
    fetch capability leaves [File.main] as it is, after exactly one call;
    no directory has been created and nothing is written. *)
Theorem file_main_fetch_failure (self : MB.File) (e : exn) (w : world) :
  MB.force (MB.File_save self) = true \/ FS.exists_in (fs w) (file_dest self) = false ->
  MB.skip_validation self = true \/
    (exists row, In row (MB.raw_data_info (MB.File_save self)) /\
                 MB.FilePath row = MB.name self) ->
  get_raw_data (MB.client (MB.File_save self)) (MB.name self) = inl e ->
  MB.File_main self w =
    (inl e, World (fs w) (trace w ++ [EvFetch RawData (MB.name self)])).
Proof.
  intros Hgate Hvalid Hfetch.
  rewrite (file_main_gate_open self w Hgate Hvalid).
  unfold bind, call_fetch, emit, result. rewrite Hfetch. reflexivity.
Qed.

Lemma file_main_fetch_failure_witness :
  MB.File_main file_flaky world_empty =
    (inl (CollaboratorError "NetworkError"), World ∅ [EvFetch RawData "a"]).
Proof.
  apply (file_main_fetch_failure file_flaky (CollaboratorError "NetworkError") world_empty).
  - right. vm_compute. reflexivity.
  - right. eexists. split; [left; reflexivity | reflexivity].
  - reflexivity.
Defined.

(** ** More on [_save] and on the bundles directory *)

Lemma mkdir_existing_dir (p : path) (w : world) :
  FS.is_dir_in (fs w) p = true -> FS.mkdir_parents_exist_ok p w = (inr tt, w).
Proof.
  intros Hd. unfold FS.mkdir_parents_exist_ok. rewrite mkdir_parents_rev_unfold.
  rewrite rev_involutive. unfold FS.os_mkdir.
  pose proof (proj1 (is_dir_in_node _ _) Hd) as Hn. unfold FS.node_at in Hn.
  destruct (FS.resolve (fs w) p) as [e|k]; [discriminate|]. rewrite Hn.
  unfold FS.exist_ok_handler. rewrite Hd. reflexivity.
Qed.

Lemma mkdir_on_file (p : path) (w : world) :
  FS.is_file_in (fs w) p = true ->
  FS.mkdir_parents_exist_ok p w = (inl (FileExistsError p), w).
Proof.
  intros Hf. unfold FS.is_file_in in Hf.
  destruct (FS.node_at (fs w) p) as [[d|]|] eqn:E; try discriminate.
  unfold FS.mkdir_parents_exist_ok. rewrite mkdir_parents_rev_unfold, rev_involutive.
  assert (Hos : FS.os_mkdir p w = (inl (FileExistsError p), w)).
  { unfold FS.os_mkdir. unfold FS.node_at in E.
    destruct (FS.resolve (fs w) p) as [e|k]; [discriminate|]. rewrite E. reflexivity. }
  rewrite Hos. unfold FS.exist_ok_handler, FS.is_dir_in. rewrite E. reflexivity.
Qed.

Lemma save_success_parent (self : MB.Save) (name : string) (data : bytes) (lvl : Z)
  (w w' : world) :
  MB._save self name data lvl w = (inr tt, w') ->
  FS.is_dir_in (fs w') (parent (joinpath (MB.output self) name)) = true.
Proof.
  intros Hrun.
  destruct (save_lands self name data lvl w) as (r & w0 & evs & Hrun' & _ & _ & _ & Hok).
  rewrite Hrun in Hrun'. injection Hrun' as <- <-. apply (Hok eq_refl).
Qed.

(** Where [_save] has stored a file: the place its path resolves to
    holds the bytes and lies in a directory. *)
Lemma save_success_slot (self : MB.Save) (name : string) (data : bytes) (lvl : Z)
  (w w' : world) :
  MB._save self name data lvl w = (inr tt, w') ->
  exists k,
    FS.resolve (fs w') (joinpath (MB.output self) name) = inr k /\
    FS.entry (fs w') k = Some (File data) /\
    FS.entry (fs w') (parent k) = Some Dir.
Proof.
  unfold MB._save, bind, log, emit.
  destruct (FS.mkdir_parents_exist_ok _ w) as [[e1|[]] w1]; [discriminate|].
  cbv beta iota.
  match goal with |- FS.write_bytes ?p _ ?w2 = _ -> _ =>
    destruct (write_bytes_effect p data w2)
      as [(e & Hrun & _) | (k & Hk & Hnd & Hpar & Hrun)];
      rewrite Hrun; [discriminate|]; intros [= <-]; simpl in *
  end.
  exists k. split; [apply resolve_insert; assumption|].
  split; [apply entry_insert_eq; exact Hnd | apply insert_keeps_dirs; assumption].
Qed.

(** Saving again: after [_save] has stored a file, saving the same name
    again succeeds, creates no directory, and replaces the content at the
    place the path resolves to, which is the joined path itself when it
    has no [".."] part; the only new events are the log line and the
    write. *)
Theorem save_again_overwrites (self : MB.Save) (name : string) (d1 d2 : bytes)
  (lvl1 lvl2 : Z) (w w1 : world) :
  MB._save self name d1 lvl1 w = (inr tt, w1) ->
  exists k,
    FS.resolve (fs w1) (joinpath (MB.output self) name) = inr k /\
    (no_dotdot (joinpath (MB.output self) name) = true ->
     k = joinpath (MB.output self) name) /\
    MB._save self name d2 lvl2 w1 =
      (inr tt,
       World (<[k := File d2]> (fs w1))
         (trace w1 ++ [EvLog lvl2 (MsgSaving (joinpath (MB.output self) name));
                       EvWrite (joinpath (MB.output self) name) d2])).
Proof.
  intros Hfirst.
  destruct (save_success_slot _ _ _ _ _ _ Hfirst) as (k & Hk & Hfile & Hslot).
  pose proof (save_success_parent _ _ _ _ _ _ Hfirst) as Hpar.
  exists k. split; [exact Hk|]. split.
  { intros Hplain. rewrite (resolve_no_dotdot _ _ Hplain) in Hk. congruence. }
  unfold MB._save, bind. rewrite (mkdir_existing_dir _ _ Hpar).
  unfold log, emit. cbv beta iota.
  rewrite (write_bytes_at _ k); simpl fs; simpl trace.
  - rewrite <- app_assoc. reflexivity.
  - exact Hk.
  - rewrite Hfile. discriminate.
  - exact Hslot.
Qed.

Lemma save_again_overwrites_witness :
  fs (snd (MB._save save_out "x/y.bin" [Byte.x2a] DEBUG
             (snd (MB._save save_out "x/y.bin" [] INFO world_empty))))
    !! ["out"; "x"; "y.bin"] = Some (File [Byte.x2a]).
Proof.
  destruct (save_again_overwrites save_out "x/y.bin" [] [Byte.x2a] INFO DEBUG world_empty
              (snd (MB._save save_out "x/y.bin" [] INFO world_empty)))
    as (k & _ & Hplain & Hrun); [vm_compute; reflexivity|].
  rewrite Hrun. simpl. rewrite (Hplain eq_refl). apply lookup_insert_eq.
Defined.

(** A regular file where the parent directory should be: [_save] raises
    [FileExistsError] for that path and changes nothing, not even the
    log. *)
Theorem save_blocked_by_file (self : MB.Save) (name : string) (data : bytes) (lvl : Z)
  (w : world) :
  FS.is_file_in (fs w) (parent (joinpath (MB.output self) name)) = true ->
  MB._save self name data lvl w =
    (inl (FileExistsError (parent (joinpath (MB.output self) name))), w).
Proof.
  intros Hf. unfold MB._save, bind. rewrite (mkdir_on_file _ _ Hf). reflexivity.
Qed.

Lemma save_blocked_by_file_witness :
  MB._save save_out "b" [] DEBUG world_blocked = (inl (FileExistsError ["out"]), world_blocked).
Proof.
  apply (save_blocked_by_file save_out "b" [] DEBUG world_blocked).
  vm_compute. reflexivity.
Defined.

(** An absolute [FilePath] leaves the output directory: [joinpath] drops
    the output root, so [_save] behaves the same for every output
    directory, and on success the bytes are at the absolute path. *)
Theorem save_absolute_name_ignores_output (self self' : MB.Save) (name r : string)
  (data : bytes) (lvl : Z) (w : world) :
  root_of name = Some r ->
  MB._save self name data lvl w = MB._save self' name data lvl w /\
  (forall w', MB._save self name data lvl w = (inr tt, w') ->
              FS.node_at (fs w') (r :: segments name) = Some (File data)).
Proof.
  intros Hr.
  assert (Hj : forall s : MB.Save, joinpath (MB.output s) name = r :: segments name).
  { intros s0. unfold joinpath. rewrite Hr. reflexivity. }
  split.
  - unfold MB._save. rewrite !Hj. reflexivity.
  - intros w' Hrun. rewrite <- (Hj self). eapply save_success_file. exact Hrun.
Qed.

Lemma save_absolute_name_ignores_output_witness :
  exists w', MB._save save_out "/tmp/x" [] DEBUG world_empty = (inr tt, w') /\
             FS.node_at (fs w') ["/"; "tmp"; "x"] = Some (File []).
Proof.
  destruct (save_absolute_name_ignores_output save_out save_out "/tmp/x" "/" [] DEBUG
              world_empty eq_refl) as [_ H].
  eexists. split; [vm_compute; reflexivity|]. apply H. vm_compute. reflexivity.
Defined.

(** The bundles directory cannot be created because its path is a
    regular file: [bundles] raises [FileExistsError] for it before
    anything is planned or fetched, and changes nothing. *)
Theorem bundles_blocked_by_file (self : Assets.Save) (sched : list nat) (w : world) :
  FS.is_file_in (fs w) (bundles_dir self) = true ->
  Assets.bundles self sched w = (inl (FileExistsError (bundles_dir self)), w).
Proof.
  intros Hf. unfold Assets.bundles, bind. fold (bundles_dir self).
  rewrite (mkdir_on_file _ _ Hf). reflexivity.
Qed.

Lemma bundles_blocked_by_file_witness :
  Assets.bundles (save_abcd false None) [] world_bundles_file =
    (inl (FileExistsError ["out"; "bundles"]), world_bundles_file).
Proof.
  apply (bundles_blocked_by_file (save_abcd false None) [] world_bundles_file).
  vm_compute. reflexivity.
Defined.

(** ** Every run of a download loop *)

(** Whatever happens in the loop, the fetch capability is called once
    for every submitted name, in completion order. *)
Lemma drain_pool_fetches (kind : resource_kind) (fetch : string -> exn + bytes)
  (dest : string -> path) (body : string -> exn + bytes -> M unit) :
  persists_at dest body ->
  forall (done : list string) (w : world),
  exists r w' evs,
    drain_pool kind fetch body done w = (r, w') /\
    trace w' = trace w ++ evs /\
    List.filter is_fetch evs = map (EvFetch kind) done.
Proof.
  intros Hbody done. induction done as [|n done IH]; intros w.
  - exists (inr tt), w, []. rewrite app_nil_r. repeat split.
  - simpl drain_pool. unfold bind at 1, emit at 1. cbv beta iota.
    set (w1 := World (fs w) (trace w ++ [EvFetch kind n])).
    destruct (Hbody n (fetch n) w1) as (res & w2 & evs & Hrun & Htr & Hfail & Hok).
    rewrite Hrun.
    assert (Hnofetch : List.filter is_fetch evs = []).
    { destruct (fetch n) as [e|d].
      - destruct (Hfail e eq_refl) as [_ Hq].
        exact (filter_fetch_none quiet evs quiet_not_fetch Hq).
      - destruct (Hok d eq_refl) as [Hs _].
        exact (filter_fetch_none _ evs (saves_not_fetch (dest n) d) Hs). }
    destruct res as [e|[]].
    + exists (inl e), (shutdown kind done w2), (EvFetch kind n :: evs ++ map (EvFetch kind) done).
      split; [reflexivity|]. split.
      * unfold shutdown. simpl. rewrite Htr. subst w1. simpl.
        rewrite <- !app_assoc. reflexivity.
      * simpl. rewrite List.filter_app, filter_fetch_all, Hnofetch. reflexivity.
    + destruct (IH w2) as (r & w' & evs' & Hrun' & Htr' & Hf').
      exists r, w', (EvFetch kind n :: evs ++ evs'). split; [exact Hrun'|]. split.
      * rewrite Htr', Htr. subst w1. simpl. rewrite <- !app_assoc. reflexivity.
      * simpl. rewrite List.filter_app, Hnofetch, Hf'. reflexivity.
Qed.

(** Every run of [_download], completed or stopped by a failure, calls
    the fetch capability exactly once for each planned path (a path
    planned twice is fetched twice), in the order of completion. *)
Theorem download_fetches_each_path_once (self : MB.All) (sched : list nat)
  (paths : list string) (w : world) :
  exists r w' evs,
    MB._download self sched paths w = (r, w') /\
    trace w' = trace w ++ evs /\
    List.filter is_fetch evs = map (EvFetch RawData) (MB.FutureWaiter sched paths) /\
    MB.FutureWaiter sched paths ≡ₚ paths.
Proof.
  destruct (drain_pool_fetches RawData (get_raw_data (MB.client (MB.All_save self))) _ _
              (download_body_persists self) (MB.FutureWaiter sched paths) w)
    as (r & w' & evs & Hrun & Htr & Hf).
  exists r, w', evs. split; [exact Hrun|]. split; [exact Htr|]. split; [exact Hf|].
  apply as_completed_perm.
Qed.

(** Every run of [bundles] that gets past the creation of its directory
    calls the fetch capability exactly once for each planned bundle,
    whether the run completes or stops at a failure. *)
Theorem bundles_fetches_each_bundle_once (self : Assets.Save) (sched : list nat)
  (w w1 : world) (plan : list string) :
  FS.mkdir_parents_exist_ok (bundles_dir self) w = (inr tt, w1) ->
  Assets._get_bundle_names self w1 = (inr plan, w1) ->
  exists r w' evs,
    Assets.bundles self sched w = (r, w') /\
    trace w' = trace w1 ++ EvLog INFO (MsgDownloadingBundles (length plan)) :: evs /\
    List.filter is_fetch evs = map (EvFetch Asset) (as_completed sched plan) /\
    as_completed sched plan ≡ₚ plan.
Proof.
  intros Hmk Hplan. unfold Assets.bundles, bind. fold (bundles_dir self).
  rewrite Hmk, Hplan. unfold log, emit. cbv beta iota.
  set (w2 := World (fs w1) (trace w1 ++ [EvLog INFO (MsgDownloadingBundles (length plan))])).
  destruct (drain_pool_fetches Asset (get_asset (Assets.client self)) _ _
              (bundles_body_persists (bundles_dir self)) (as_completed sched plan) w2)
    as (r & w' & evs & Hrun & Htr & Hf).
  exists r, w', evs. split; [exact Hrun|]. split; [|split; [exact Hf | apply as_completed_perm]].
  rewrite Htr. subst w2. simpl. rewrite <- app_assoc. reflexivity.
Qed.

Lemma bundles_fetches_each_bundle_once_witness :
  exists r w' evs,
    Assets.bundles flaky_save [1%nat] world_empty = (r, w') /\
    List.filter is_fetch evs = [EvFetch Asset "b"; EvFetch Asset "a"].
Proof.
  destruct (bundles_fetches_each_bundle_once flaky_save [1%nat] world_empty
              (snd (FS.mkdir_parents_exist_ok (bundles_dir flaky_save) world_empty))
              ["a"; "b"])
    as (r & w' & evs & Hrun & _ & Hf & _).
  - vm_compute. reflexivity.
  - vm_compute. reflexivity.
  - exists r, w', evs. split; [exact Hrun | exact Hf].
Defined.

(** ** Runs that complete *)

(** A run of [_download] that returns normally: every planned path was
    fetched successfully, each result was written once at its place
    under the output root, in completion order, and every planned path
    is a regular file there at the end. *)
Theorem download_complete_run (self : MB.All) (sched : list nat) (paths : list string)
  (w w' : world) :
  MB._download self sched paths w = (inr tt, w') ->
  (forall path, In path paths ->
     (exists d, get_raw_data (MB.client (MB.All_save self)) path = inr d) /\
     FS.is_file_in (fs w') (joinpath (MB.output (MB.All_save self)) path) = true) /\
  exists evs,
    trace w' = trace w ++ evs /\
    List.filter is_write evs =
      writes_of (get_raw_data (MB.client (MB.All_save self)))
        (joinpath (MB.output (MB.All_save self))) (MB.FutureWaiter sched paths).
Proof.
  intros Hrun. unfold MB._download in Hrun.
  destruct (download_body_stores self) as [Honce Hstores].
  destruct (drain_pool_complete _ _ _ _ Honce Hstores _ _ _ Hrun)
    as (Hall & Hevs & _ & Hfiles).
  split; [|exact Hevs].
  intros path Hin. apply (as_completed_In sched) in Hin. split; [apply Hall | apply Hfiles];
    exact Hin.
Qed.

(** A run of [bundles] that returns normally: every planned bundle was
    fetched successfully and written once at its place in the bundles
    directory, and is a regular file there at the end. *)
Theorem bundles_complete_run (self : Assets.Save) (sched : list nat)
  (w w1 w' : world) (plan : list string) :
  FS.mkdir_parents_exist_ok (bundles_dir self) w = (inr tt, w1) ->
  Assets._get_bundle_names self w1 = (inr plan, w1) ->
  Assets.bundles self sched w = (inr tt, w') ->
  (forall name, In name plan ->
     (exists d, get_asset (Assets.client self) name = inr d) /\
     FS.is_file_in (fs w') (joinpath (bundles_dir self) name) = true) /\
  exists evs,
    trace w' = trace w1 ++ EvLog INFO (MsgDownloadingBundles (length plan)) :: evs /\
    List.filter is_write evs =
      writes_of (get_asset (Assets.client self)) (joinpath (bundles_dir self))
        (as_completed sched plan).
Proof.
  intros Hmk Hplan. unfold Assets.bundles, bind. fold (bundles_dir self).
  rewrite Hmk, Hplan. unfold log, emit. cbv beta iota. intros Hrun.
  destruct (bundles_body_stores (bundles_dir self)) as [Honce Hstores].
  destruct (drain_pool_complete _ _ _ _ Honce Hstores _ _ _ Hrun)
    as (Hall & (evs & Htr & Hw) & _ & Hfiles).
  split.
  - intros name Hin. apply (as_completed_In sched) in Hin.
    split; [apply Hall | apply Hfiles]; exact Hin.
  - exists evs. split; [|exact Hw]. rewrite Htr. simpl. rewrite <- app_assoc. reflexivity.
Qed.

Lemma download_complete_run_witness :
  FS.is_file_in (fs (snd (MB._download (all_abcd false None) [1%nat] ["a"; "b"] world_empty)))
    ["out"; "b"] = true.
Proof.
  destruct (download_complete_run (all_abcd false None) [1%nat] ["a"; "b"] world_empty
              (snd (MB._download (all_abcd false None) [1%nat] ["a"; "b"] world_empty)))
    as [Hall _].
  - vm_compute. reflexivity.
  - apply (Hall "b"). right. left. reflexivity.
Defined.

Lemma bundles_complete_run_witness :
  FS.is_file_in (fs (snd (Assets.bundles (save_abcd false (Some 2)) [] world_a)))
    ["out"; "bundles"; "c"] = true.
Proof.
  destruct (bundles_complete_run (save_abcd false (Some 2)) [] world_a world_a
              (snd (Assets.bundles (save_abcd false (Some 2)) [] world_a)) ["b"; "c"])
    as [Hall _].
  - vm_compute. reflexivity.
  - rewrite get_bundle_names_unforced by (vm_compute; reflexivity). vm_compute. reflexivity.
  - vm_compute. reflexivity.
  - apply (Hall "c"). right. left. reflexivity.
Defined.

(** ** Running [bundles] again *)

Lemma bundles_body_keeps_existing (out_dir : path) (name : string) (r : exn + bytes)
  (w w' : world) (res : exn + unit) :
  Assets.bundles_body out_dir name r w = (res, w') ->
  forall q, FS.exists_in (fs w) q = true -> FS.exists_in (fs w') q = true.
Proof.
  unfold Assets.bundles_body, bind, log, emit, result. cbv beta iota.
  destruct r as [e|d]; [intros [= <- <-]; auto|]. unfold ret.
  match goal with |- FS.write_bytes ?p _ ?w2 = _ -> _ =>
    destruct (write_bytes_effect p d w2) as [(e & Hrun & _) | (k & Hk & Hnd & _ & Hrun)];
      rewrite Hrun
  end; intros [= <- <-]; [auto|].
  intros q Hq. simpl in *. apply exists_in_insert; assumption.
Qed.

Lemma bundles_loop_keeps_existing (fetch : string -> exn + bytes) (out_dir : path)
  (done : list string) :
  forall (w w' : world) (r : exn + unit),
    drain_pool Asset fetch (Assets.bundles_body out_dir) done w = (r, w') ->
    forall q, FS.exists_in (fs w) q = true -> FS.exists_in (fs w') q = true.
Proof.
  induction done as [|n done IH]; intros w w' r.
  - intros [= <- <-]. auto.
  - simpl drain_pool. unfold bind at 1, emit at 1. cbv beta iota.
    destruct (Assets.bundles_body out_dir n (fetch n) _) as [[e|[]] w2] eqn:Hbody;
      intros Hrun q Hq; pose proof (bundles_body_keeps_existing _ _ _ _ _ _ Hbody q Hq) as Hq2.
    + injection Hrun as <- <-. exact Hq2.
    + eapply IH; eassumption.
Qed.

Lemma file_exists_in (f : gmap path node) (p : path) :
  FS.is_file_in f p = true -> FS.exists_in f p = true.
Proof.
  unfold FS.is_file_in. intros H. apply exists_in_node.
  destruct (FS.node_at f p) as [n|]; [eauto | discriminate].
Qed.

(** Resuming bundle downloads: after a run of [bundles] without
    [--force] that returned normally, the next plan contains none of the
    bundles of that run; when no limit is set the next plan is empty, so
    running the command again fetches nothing. *)
Theorem bundles_rerun_skips_downloaded (self : Assets.Save) (sched : list nat)
  (w w1 w' : world) (plan : list string) :
  Assets.force self = false ->
  FS.mkdir_parents_exist_ok (bundles_dir self) w = (inr tt, w1) ->
  Assets._get_bundle_names self w1 = (inr plan, w1) ->
  Assets.bundles self sched w = (inr tt, w') ->
  exists plan',
    Assets._get_bundle_names self w' = (inr plan', w') /\
    (forall name, In name plan -> ~ In name plan') /\
    (truthy_int (Assets.limit self) = false -> plan' = []).
Proof.
  intros Hf Hmk Hplan Hrun.
  pose proof (mkdir_parents_exist_ok_exists _ _ _ Hmk) as Hdir1.
  pose proof Hrun as Hrun0.
  unfold Assets.bundles, bind in Hrun. fold (bundles_dir self) in Hrun.
  rewrite Hmk, Hplan in Hrun. unfold log, emit in Hrun. cbv beta iota in Hrun.
  pose proof (bundles_loop_keeps_existing _ _ _ _ _ _ Hrun) as Hkeep. simpl in Hkeep.
  destruct (bundles_body_stores (bundles_dir self)) as [Honce Hstores].
  destruct (drain_pool_complete _ _ _ _ Honce Hstores _ _ _ Hrun) as (_ & _ & _ & Hfiles).
  pose proof (Hkeep _ Hdir1) as Hdir'.
  eexists. split; [apply get_bundle_names_unforced; assumption|]. cbv zeta. split.
  - intros name Hin Hin'. apply In_kept in Hin' as [_ Hnot].
    apply negb_true_iff in Hnot. unfold have_bundle in Hnot.
    rewrite (file_exists_in _ _ (Hfiles name (proj2 (as_completed_In sched plan name) Hin)))
      in Hnot. discriminate.
  - intros Hlim. rewrite Hlim.
    rewrite (get_bundle_names_unforced self w1 Hf Hdir1) in Hplan. cbv zeta in Hplan.
    rewrite Hlim in Hplan. injection Hplan as Hplan.
    apply list_filter_none. intros name Hname. apply negb_false_iff. unfold have_bundle.
    destruct (have_bundle self w1 name) eqn:Hhave.
    + apply Hkeep. exact Hhave.
    + apply file_exists_in, Hfiles, as_completed_In. rewrite <- Hplan.
      apply filter_In. split; [exact Hname|]. rewrite Hhave. reflexivity.
Qed.

Lemma bundles_rerun_skips_downloaded_witness :
  Assets._get_bundle_names (save_abcd false None)
    (snd (Assets.bundles (save_abcd false None) [2%nat] world_a)) =
  (inr [], snd (Assets.bundles (save_abcd false None) [2%nat] world_a)).
Proof.
  destruct (bundles_rerun_skips_downloaded (save_abcd false None) [2%nat] world_a world_a
              (snd (Assets.bundles (save_abcd false None) [2%nat] world_a)) ["b"; "c"; "d"])
    as (plan' & Hplan' & _ & Hempty).
  - reflexivity.
  - vm_compute. reflexivity.
  - rewrite get_bundle_names_unforced by (vm_compute; reflexivity). vm_compute. reflexivity.
  - vm_compute. reflexivity.
  - rewrite Hplan', (Hempty eq_refl). reflexivity.
Defined.

(** ** Searching bundle contents *)

Lemma iter_bundle_contents_readable (contents : path -> exn + list string)
  (src_paths : list path) :
  (forall s, In s src_paths -> exists l, contents s = inr l) ->
  snd (Assets.iter_bundle_contents contents src_paths) = None /\
  forall src cp,
    In (src, cp) (fst (Assets.iter_bundle_contents contents src_paths)) <->
    In src src_paths /\ exists l, contents src = inr l /\ In cp l.
Proof.
  induction src_paths as [|s rest IH]; intros Hall.
  - split; [reflexivity|]. intros src cp. simpl. split; [tauto | intros [[] _]].
  - destruct (Hall s (or_introl eq_refl)) as [l Hl].
    destruct IH as [Hstop Hin]; [intros s' Hs'; apply Hall; right; exact Hs'|].
    simpl. rewrite Hl.
    destruct (Assets.iter_bundle_contents contents rest) as [more stop] eqn:E.
    simpl in *. split; [exact Hstop|]. intros src cp. rewrite in_app_iff, Hin. split.
    + intros [Hhere | (Hsrc & Hcp)].
      * apply in_map_iff in Hhere as (cp' & [= <- <-] & Hcp). split; [left; reflexivity|].
        eauto.
      * split; [right; exact Hsrc | exact Hcp].
    + intros ([<- | Hsrc] & l' & Hl' & Hcp).
      * left. rewrite Hl in Hl'. injection Hl' as <-. apply in_map. exact Hcp.
      * right. eauto.
Qed.

Lemma iter_bundle_contents_unreadable (contents : path -> exn + list string)
  (pre : list path) (bad : path) (post : list path) (e : exn) :
  (forall s, In s pre -> exists l, contents s = inr l) ->
  contents bad = inl e ->
  Assets.iter_bundle_contents contents (pre ++ bad :: post) =
    (fst (Assets.iter_bundle_contents contents pre), Some e).
Proof.
  intros Hpre Hbad. induction pre as [|s pre IH]; simpl.
  - rewrite Hbad. reflexivity.
  - destruct (Hpre s (or_introl eq_refl)) as [l Hl]. rewrite Hl.
    rewrite IH by (intros s' Hs'; apply Hpre; right; exact Hs').
    destruct (Assets.iter_bundle_contents contents pre). reflexivity.
Qed.

(** What a search yields when every container can be read: the pairs of
    a source and one of its content paths such that the path, put
    through [normcase] of the host, matches the pattern; the generator
    ends without an exception. *)
Theorem find_yields_the_matches os (self : Assets.Find) (src_paths : list path) :
  (forall s, In s src_paths -> exists l, Assets.contents self s = inr l) ->
  snd (Assets.iter_matching_contents os self src_paths) = None /\
  forall src cp,
    In (src, cp) (fst (Assets.iter_matching_contents os self src_paths)) <->
    In src src_paths /\
    (exists l, Assets.contents self src = inr l /\ In cp l) /\
    Fnmatch._compile_pattern (Fnmatch.normcase os (Assets.pattern self))
      (Fnmatch.normcase os cp) = true.
Proof.
  intros Hall. rewrite iter_matching_contents_normcase.
  destruct (iter_bundle_contents_readable _ _ Hall) as [Hstop Hin].
  split; [exact Hstop|]. intros src cp. simpl fst.
  rewrite filter_In, Hin. tauto.
Qed.

Lemma find_yields_the_matches_witness :
  In (["in.bundle"], "icons/a.png")
     (fst (Assets.iter_matching_contents Fnmatch.posixpath (find_one "icons/*" "icons/a.png")
             [["in.bundle"]])).
Proof.
  destruct (find_yields_the_matches Fnmatch.posixpath (find_one "icons/*" "icons/a.png")
              [["in.bundle"]]) as [_ H].
  - intros s _. eexists. reflexivity.
  - apply H. split; [left; reflexivity|]. split; [|reflexivity].
    eexists. split; [reflexivity | left; reflexivity].
Defined.

Lemma for_each_print_lines (path_repr : path -> string) (found : list (path * string))
  (w : world) :
  for_each found
    (fun '(src_path, content_path) =>
       print ("Bundle " +:+ path_repr src_path +:+ " contains: " +:+ content_path)) w =
  (inr tt, World (fs w) (trace w ++ map (fun m => EvPrint (find_line path_repr m)) found)).
Proof.
  revert w. induction found as [|[src cp] found IH]; intros w; simpl.
  - unfold ret. rewrite app_nil_r. destruct w; reflexivity.
  - unfold bind, print, emit. rewrite IH. simpl. rewrite <- app_assoc. reflexivity.
Qed.

(** A container that cannot be read stops the search: [Find.main] prints
    the matches of the containers before it, in order, then lets the
    reader's exception through; the containers after it are not looked
    at, and nothing on disk changes. *)
Theorem find_main_stops_at_unreadable os (self : Assets.Find) (path_repr : path -> string)
  (w : world) (pre : list path) (bad : path) (post : list path) (e : exn) :
  Assets.iter_src_paths (Assets.Find_base self) w = (inr (pre ++ bad :: post), w) ->
  (forall s, In s pre -> exists l, Assets.contents self s = inr l) ->
  Assets.contents self bad = inl e ->
  Find_main os self path_repr w =
    (inl e,
     World (fs w)
       (trace w ++ map (fun m => EvPrint (find_line path_repr m))
                     (fst (Assets.iter_matching_contents os self pre)))).
Proof.
  intros Hsrc Hpre Hbad. unfold Find_main. unfold bind at 1. rewrite Hsrc.
  rewrite !iter_matching_contents_normcase.
  rewrite (iter_bundle_contents_unreadable _ pre bad post e Hpre Hbad).
  simpl fst. simpl snd. unfold bind. rewrite for_each_print_lines. reflexivity.
Qed.

Lemma find_main_stops_at_unreadable_witness :
  Find_main Fnmatch.posixpath (find_three "*.png") (fun p => default "" (last p)) world_in =
    (inl (CollaboratorError "ParseError"),
     World (fs world_in) [EvPrint "Bundle s1 contains: icons/a.png"]).
Proof.
  apply (find_main_stops_at_unreadable Fnmatch.posixpath (find_three "*.png")
           (fun p => default "" (last p)) world_in [s1] s2 [s3]).
  - vm_compute. reflexivity.
  - intros s [<- | []]. eexists. reflexivity.
  - reflexivity.
Defined.

(** A pattern without wildcard characters matches one name only, the
    pattern itself: the match is on the whole path, so a file name alone
    does not find the entries of that name in a directory. *)
Theorem literal_pattern_matches_itself_only (pat name : string) :
  literal pat = true ->
  (Fnmatch._compile_pattern pat name = true <-> name = pat).
Proof.
  intros Hl. unfold Fnmatch._compile_pattern, Fnmatch.translate.
  rewrite (translate_from_literal_end _ false Hl), matches_literal_iff.
  split; [apply list_ascii_of_string_inj | intros ->; reflexivity].
Qed.

Lemma literal_pattern_matches_itself_only_witness :
  Fnmatch._compile_pattern "a.png" "icons/a.png" <> true.
Proof.
  intros H. apply (literal_pattern_matches_itself_only "a.png" "icons/a.png") in H;
    [discriminate | reflexivity].
Defined.

(** ** Extracting one container *)

Lemma as_completed_one {A} (sched : list nat) (x : A) : as_completed sched [x] = [x].
Proof.
  unfold as_completed.
  change (pick_order sched (length [x]) [x])
    with (match [x] !! (hd 0%nat sched mod 1)%nat with
          | Some y => y :: pick_order (tl sched) 0 (delete (hd 0%nat sched mod 1)%nat [x])
          | None => []
          end).
  rewrite Nat.mod_1_r. reflexivity.
Qed.

(** With a single container file as input, [Extract.main] runs the
    extraction of that file, once, without walking any directory, and
    returns normally whether the extraction raised or not. *)
Theorem extract_main_single_file (self : Assets.Extract) (sched : list nat) (w : world) :
  FS.is_file_in (fs w) (Assets.input (Assets.Extract_base self)) = true ->
  Assets.Extract_main self sched w =
    (inr tt,
     snd (Assets.extract_bundle self (Assets.Extract_output self)
            (Assets.input (Assets.Extract_base self)) w)).
Proof.
  intros Hfile. unfold Assets.Extract_main, Assets.iter_src_paths, FS.reads.
  unfold bind at 1. unfold bind at 1. rewrite Hfile. unfold ret at 1.
  unfold Assets.wait. rewrite as_completed_one. simpl Assets.run_all.
  unfold bind, Assets.run_task, ret.
  destruct (Assets.extract_bundle self _ _ w) as [r w1]. reflexivity.
Qed.

Lemma extract_main_single_file_witness :
  exists w',
    Assets.Extract_main extract_one [] world_in = (inr tt, w') /\
    trace w' = [EvWrite ["out"; "s1"] [Byte.x2a]].
Proof.
  eexists. split.
  - apply (extract_main_single_file extract_one [] world_in). vm_compute. reflexivity.
  - vm_compute. reflexivity.
Defined.

(** ** Choosing the account to show *)

Lemma find_first {A} (f : A -> bool) (l : list A) :
  match List.find f l with
  | Some a =>
      f a = true /\
      exists pre post, l = pre ++ a :: post /\ Forall (fun b => f b = false) pre
  | None => Forall (fun b => f b = false) l
  end.
Proof.
  induction l as [|x l IH]; simpl.
  - constructor.
  - destruct (f x) eqn:Hx.
    + split; [exact Hx|]. exists [], l. split; [reflexivity | constructor].
    + destruct (List.find f l) as [a|].
      * destruct IH as [Ha (pre & post & -> & Hpre)]. split; [exact Ha|].
        exists (x :: pre), post. split; [reflexivity|].
        constructor; assumption.
      * constructor; assumption.
Qed.

(** [Show.account] with [-i 0]: the walrus test [if user_id := self.user_id:]
    is false for [0], so the lookup by id is skipped, the accounts are
    searched for the name [None], and the command ends in the usage error
    of the name branch whatever the configuration holds, an account with
    key ["0"] included. *)
Theorem show_account_user_id_zero (accounts : Game.accounts_dict) (self : Game.Show) :
  Game.Show_user_id self = Some 0%Z ->
  Game.Show_name self = None ->
  Game.account accounts self =
    inl (Game.UsageError_no_account None
           (Game.join_comma (sorted (map (fun a => Game.name (snd a)) accounts)))).
Proof.
  intros Hid Hname. unfold Game.account. rewrite Hid. simpl.
  unfold Game.account_by_name. rewrite Hname.
  pose proof (find_first
    (fun account : Game.AccountConfig =>
       bool_decide (Some (Game.name account) = (None : option string)))
    (map snd accounts)) as H.
  destruct (List.find _ (map snd accounts)) as [a|]; [|reflexivity].
  destruct H as [Ha _]. apply bool_decide_eq_true in Ha. discriminate.
Qed.

Lemma show_account_user_id_zero_witness :
  Game.getitem two_accounts "0" <> None /\
  Game.account two_accounts
    {| Game.Show_user_id := Some 0%Z; Game.Show_name := None |} =
    inl (Game.UsageError_no_account None "alt, main").
Proof.
  split; [vm_compute; discriminate|].
  apply (show_account_user_id_zero two_accounts
           {| Game.Show_user_id := Some 0%Z; Game.Show_name := None |});
    reflexivity.
Defined.

(** [Show.account] with [-n NAME] (no user id, or the user id [0]): the
    result is the first account, in the order of the configuration, whose
    name is [NAME]; the usage error is raised exactly when no account has
    that name, and its message lists the names sorted. *)
Theorem show_account_by_name (accounts : Game.accounts_dict) (self : Game.Show)
    (n : string) :
  truthy_int (Game.Show_user_id self) = false ->
  Game.Show_name self = Some n ->
  match Game.account accounts self with
  | inr a =>
      Game.name a = n /\
      exists pre post,
        map snd accounts = pre ++ a :: post /\
        Forall (fun b => Game.name b <> n) pre
  | inl e =>
      Forall (fun b => Game.name b <> n) (map snd accounts) /\
      e = Game.UsageError_no_account (Some n)
            (Game.join_comma (sorted (map (fun a => Game.name (snd a)) accounts)))
  end.
Proof.
  intros Hid Hname. unfold Game.account. rewrite Hid.
  unfold Game.account_by_name. rewrite Hname.
  pose proof (find_first
    (fun account : Game.AccountConfig =>
       bool_decide (Some (Game.name account) = Some n))
    (map snd accounts)) as H.
  assert (Hno : forall l : list Game.AccountConfig,
             Forall (fun b => bool_decide (Some (Game.name b) = Some n) = false) l ->
             Forall (fun b => Game.name b <> n) l).
  { intros l Hl. eapply Forall_impl; [exact Hl|].
    intros b Hb Heq. apply bool_decide_eq_false in Hb. apply Hb. now rewrite Heq. }
  destruct (List.find _ (map snd accounts)) as [a|].
  - destruct H as [Ha (pre & post & Heq & Hpre)].
    apply bool_decide_eq_true in Ha. split; [congruence|].
    exists pre, post. split; [exact Heq | apply Hno, Hpre].
  - split; [apply Hno, H | reflexivity].
Qed.

Lemma show_account_by_name_witness :
  Game.account two_accounts
    {| Game.Show_user_id := None; Game.Show_name := Some "alt" |} =
    inr {| Game.user_id := 42; Game.name := "alt"; Game.client_key := None |} /\
  match Game.account two_accounts
          {| Game.Show_user_id := None; Game.Show_name := Some "alt" |} with
  | inr a =>
      Game.name a = "alt" /\
      exists pre post,
        map snd two_accounts = pre ++ a :: post /\
        Forall (fun b => Game.name b <> "alt") pre
  | inl e =>
      Forall (fun b => Game.name b <> "alt") (map snd two_accounts) /\
      e = Game.UsageError_no_account (Some "alt")
            (Game.join_comma (sorted (map (fun a => Game.name (snd a)) two_accounts)))
  end.
Proof.
  split; [vm_compute; reflexivity|].
  apply (show_account_by_name two_accounts
           {| Game.Show_user_id := None; Game.Show_name := Some "alt" |} "alt");
    reflexivity.
Defined.
